(** * Peloton catalog and materialization executor: a shallow embedding

    The first module embeds [src/catalog/catalog.cpp]: the live object
    graph (databases, tables, indexes), the four system-catalog tables and
    the DDL entry points of [Catalog].  The second module embeds the
    logical-tile materialization path exercised by the materialization
    test suite. *)

From Stdlib Require Import ZArith String Ascii List Lia DecimalString Sorted.
From stdpp Require Import base option list strings gmap.

Local Open Scope Z_scope.

Module peloton.

(** ** Basic types (common/types.h) *)

(** [oid_t] is an unsigned 32-bit integer. *)
Abbreviation oid_t := Z (only parsing).

Definition oid_wrap (z : Z) : oid_t := z mod 2 ^ 32.

Inductive ResultType := SUCCESS | FAILURE.

Inductive IndexType := BWTREE | HASH.

Inductive IndexConstraintType := DEFAULT | PRIMARY_KEY | UNIQUE.

Inductive ConstraintType := NOTNULL | PRIMARY.

Inductive TypeId := INTEGER | TINYINT | VARCHAR | VARBINARY | TIMESTAMP | DECIMAL.

#[global] Instance ResultType_eq_dec : EqDecision ResultType.
Proof. solve_decision. Defined.
#[global] Instance IndexType_eq_dec : EqDecision IndexType.
Proof. solve_decision. Defined.
#[global] Instance IndexConstraintType_eq_dec : EqDecision IndexConstraintType.
Proof. solve_decision. Defined.
#[global] Instance ConstraintType_eq_dec : EqDecision ConstraintType.
Proof. solve_decision. Defined.
#[global] Instance TypeId_eq_dec : EqDecision TypeId.
Proof. solve_decision. Defined.

(** ** Schema and columns (catalog/schema.h, catalog/column.h) *)

Record Column := {
  column_name : string;
  column_offset : oid_t;
  column_type : TypeId;
  is_inlined : bool;
  constraints : list ConstraintType;
}.

(** Modelled from the spec: [Column::IsPrimary] (catalog/column.h is not in
    src); a column is primary when PRIMARY is in its constraint set. *)
Definition IsPrimary (column : Column) : bool :=
  bool_decide (PRIMARY ∈ constraints column).

Record Schema := {
  columns : list Column;
  indexed_columns : list oid_t;
}.

Definition GetColumns (schema : Schema) : list Column := columns schema.

(** Modelled from the spec: [Schema::CopySchema(schema, key_attrs)]
    (catalog/schema.h is not in src) builds the sub-schema made of the
    columns at the given ordinals, in the order of the ordinal list. *)
Definition CopySchema (schema : Schema) (key_attrs : list oid_t) : Schema :=
  {| columns := omap (λ i, columns schema !! Z.to_nat i) key_attrs;
     indexed_columns := [] |}.

Definition SetIndexedColumns (key_attrs : list oid_t) (schema : Schema) : Schema :=
  {| columns := columns schema; indexed_columns := key_attrs |}.

(** ** String utilities (util/string_util.h) *)

Definition toupper (ch : ascii) : ascii :=
  let n := nat_of_ascii ch in
  if ((97 <=? n) && (n <=? 122))%nat then ascii_of_nat (n - 32) else ch.

(** Modelled from the spec: [StringUtil::Upper] (util/string_util.h is not
    in src) upper-cases a string character by character. *)
Fixpoint Upper (s : string) : string :=
  match s with
  | EmptyString => EmptyString
  | String ch rest => String (toupper ch) (Upper rest)
  end.

(** ** Indexes (index/index.h, index/index_factory.h) *)

Record IndexMetadata := {
  index_name : string;
  index_oid : oid_t;
  index_table_oid : oid_t;
  index_database_oid : oid_t;
  index_type : IndexType;
  index_constraint_type : IndexConstraintType;
  tuple_schema : Schema;
  key_schema : Schema;
  key_attrs : list oid_t;
  unique_keys : bool;
}.

(** The index implementation is opaque to the catalog: an index is known
    by the metadata it was built from. *)
Record Index := { metadata : IndexMetadata }.

Definition IndexFactory_GetIndex (index_metadata : IndexMetadata) : Index :=
  {| metadata := index_metadata |}.

Definition Index_GetOid (index : Index) : oid_t := index_oid (metadata index).

(** ** Live objects (storage/data_table.h, storage/database.h) *)

Record DataTable := {
  table_oid : oid_t;
  table_name : string;
  table_database_oid : oid_t;
  table_schema : Schema;
  indexes : list Index;
}.

Definition TableFactory_GetDataTable (database_oid table_oid : oid_t)
    (schema : Schema) (table_name : string) : DataTable :=
  {| table_oid := table_oid; table_name := table_name;
     table_database_oid := database_oid; table_schema := schema;
     indexes := [] |}.

Definition DataTable_AddIndex (index : Index) (table : DataTable) : DataTable :=
  {| table_oid := table_oid table; table_name := table_name table;
     table_database_oid := table_database_oid table;
     table_schema := table_schema table;
     indexes := indexes table ++ [index] |}.

Definition DataTable_DropIndexes (table : DataTable) : DataTable :=
  {| table_oid := table_oid table; table_name := table_name table;
     table_database_oid := table_database_oid table;
     table_schema := table_schema table;
     indexes := [] |}.

Definition DataTable_DropIndexWithOid (index_oid : oid_t) (table : DataTable)
    : DataTable :=
  {| table_oid := table_oid table; table_name := table_name table;
     table_database_oid := table_database_oid table;
     table_schema := table_schema table;
     indexes := filter (λ index, Index_GetOid index ≠ index_oid) (indexes table) |}.

Definition DataTable_GetIndexWithOid (index_oid : oid_t) (table : DataTable)
    : option Index :=
  snd <$> list_find (λ index, Index_GetOid index = index_oid) (indexes table).

Record Database := {
  database_oid : oid_t;
  database_name : string;
  tables : list DataTable;
}.

Definition new_Database (database_oid : oid_t) : Database :=
  {| database_oid := database_oid; database_name := ""; tables := [] |}.

Definition setDBName (database_name : string) (database : Database) : Database :=
  {| database_oid := database_oid database; database_name := database_name;
     tables := tables database |}.

Definition set_tables (f : list DataTable → list DataTable) (database : Database)
    : Database :=
  {| database_oid := database_oid database;
     database_name := database_name database;
     tables := f (tables database) |}.

(** A pointer into a vector is the offset of the element it points to, paired
    with the object read through it. *)
Definition Database_GetTableWithName (table_name' : string) (database : Database)
    : option (nat * DataTable) :=
  list_find (λ table, table_name table = table_name') (tables database).

Definition Database_GetTableWithOid (table_oid' : oid_t) (database : Database)
    : option (nat * DataTable) :=
  list_find (λ table, table_oid table = table_oid') (tables database).

Definition Database_AddTable (table : DataTable) (database : Database) : Database :=
  set_tables (λ ts, ts ++ [table]) database.

(** Erases the first table carrying the oid, as the vector erase of the
    storage layer does. *)
Definition Database_DropTableWithOid (table_oid' : oid_t) (database : Database)
    : Database :=
  match Database_GetTableWithOid table_oid' database with
  | Some (table_offset, _) => set_tables (delete table_offset) database
  | None => database
  end.

(** ** System-catalog tables *)

Record DatabaseTuple := {
  pg_database_oid : oid_t;
  pg_database_name : string;
}.

Record TableTuple := {
  pg_table_oid : oid_t;
  pg_table_name : string;
  pg_table_database_oid : oid_t;
  pg_table_database_name : string;
}.

Record ColumnTuple := {
  pg_attribute_table_oid : oid_t;
  pg_attribute_name : string;
  pg_attribute_offset : oid_t;
  pg_attribute_type : TypeId;
  pg_attribute_inlined : bool;
  pg_attribute_constraints : list ConstraintType;
}.

Record IndexTuple := {
  pg_index_oid : oid_t;
  pg_index_name : string;
  pg_index_table_oid : oid_t;
  pg_index_database_oid : oid_t;
  pg_index_unique_keys : bool;
}.

(** ** The catalog singleton *)

Record Catalog := {
  databases_ : list Database;
  pg_database : list DatabaseTuple;
  pg_table : list TableTuple;
  pg_attribute : list ColumnTuple;
  pg_index : list IndexTuple;
  oid_ : oid_t;
}.

Definition set_databases (f : list Database → list Database) (c : Catalog) : Catalog :=
  {| databases_ := f (databases_ c); pg_database := pg_database c;
     pg_table := pg_table c; pg_attribute := pg_attribute c;
     pg_index := pg_index c; oid_ := oid_ c |}.

Definition set_pg_database (f : list DatabaseTuple → list DatabaseTuple)
    (c : Catalog) : Catalog :=
  {| databases_ := databases_ c; pg_database := f (pg_database c);
     pg_table := pg_table c; pg_attribute := pg_attribute c;
     pg_index := pg_index c; oid_ := oid_ c |}.

Definition set_pg_table (f : list TableTuple → list TableTuple) (c : Catalog)
    : Catalog :=
  {| databases_ := databases_ c; pg_database := pg_database c;
     pg_table := f (pg_table c); pg_attribute := pg_attribute c;
     pg_index := pg_index c; oid_ := oid_ c |}.

Definition set_pg_attribute (f : list ColumnTuple → list ColumnTuple)
    (c : Catalog) : Catalog :=
  {| databases_ := databases_ c; pg_database := pg_database c;
     pg_table := pg_table c; pg_attribute := f (pg_attribute c);
     pg_index := pg_index c; oid_ := oid_ c |}.

Definition set_pg_index (f : list IndexTuple → list IndexTuple) (c : Catalog)
    : Catalog :=
  {| databases_ := databases_ c; pg_database := pg_database c;
     pg_table := pg_table c; pg_attribute := pg_attribute c;
     pg_index := f (pg_index c); oid_ := oid_ c |}.

Definition set_oid (f : oid_t → oid_t) (c : Catalog) : Catalog :=
  {| databases_ := databases_ c; pg_database := pg_database c;
     pg_table := pg_table c; pg_attribute := pg_attribute c;
     pg_index := pg_index c; oid_ := f (oid_ c) |}.

(** ** Catalog operations as a state monad with undefined behaviour

    A member function of [Catalog] reads and writes the singleton; it is a
    function from the catalog state to a result and a new state.  [None]
    stands for undefined behaviour of the C++ code (dereferencing a null
    pointer). *)
Definition M (A : Type) : Type := Catalog → option (A * Catalog).

#[global] Instance M_ret : MRet M := λ A a c, Some (a, c).
#[global] Instance M_bind : MBind M := λ A B k m c,
  match m c with
  | Some (a, c') => k a c'
  | None => None
  end.

#[global] Instance M_fmap : FMap M := λ A B f m c,
  match m c with
  | Some (a, c') => Some (f a, c')
  | None => None
  end.

Definition gets {A} (f : Catalog → A) : M A := λ c, Some (f c, c).
Definition modify (f : Catalog → Catalog) : M unit := λ c, Some (tt, f c).

(** [p->...] on a possibly null pointer. *)
Definition deref {A} (p : option A) : M A := λ c,
  match p with
  | Some a => Some (a, c)
  | None => None
  end.

(** Runs the loop body once per element, in order. *)
Fixpoint for_each {A} (l : list A) (body : A → M unit) : M unit :=
  match l with
  | [] => mret tt
  | x :: rest => body x ;; for_each rest body
  end.

Definition is_nullptr {A} (p : option A) : bool :=
  match p with
  | None => true
  | Some _ => false
  end.

(** Constants of common/types.h, which is not in src: the sentinel oid
    returned by a failed lookup and the DATABASE tag of [CatalogType].  The
    catalog code is embedded for any value of the two. *)
Class Constants := {
  INVALID_OID : oid_t;
  CatalogType_DATABASE : oid_t;
}.

Section Catalog.

Context {K : Constants}.

(** *** Oid generator *)

(** Modelled from the spec: [GetNextOid] (catalog/catalog.h and
    catalog/abstract_catalog.h are not in src); one process-wide counter
    shared by all object kinds hands out increasing oids. *)
Definition GetNextOid : M oid_t := λ c,
  Some (oid_ c, set_oid (λ o, oid_wrap (o + 1)) c).

(** *** DatabaseCatalog (pg_database) *)

(** Modelled from the spec: the typed accessors of the four system-catalog
    tables (catalog/database_catalog.h, table_catalog.h, column_catalog.h
    and index_catalog.h are not in src).  A table is the sequence of its
    tuples; insert appends, lookup-by-name and lookup-by-oid return the
    first match or [INVALID_OID], delete removes every tuple with the key
    and reports whether there was one. *)
Definition DatabaseCatalog_GetDatabaseOid (database_name : string) : M oid_t :=
  gets (λ c,
    match list_find (λ t, pg_database_name t = database_name) (pg_database c) with
    | Some (_, t) => pg_database_oid t
    | None => INVALID_OID
    end).

Definition DatabaseCatalog_InsertDatabase (database_oid : oid_t)
    (database_name : string) : M unit :=
  modify (set_pg_database (λ l, l ++
    [{| pg_database_oid := database_oid; pg_database_name := database_name |}])).

Definition DatabaseCatalog_DeleteDatabase (database_oid : oid_t) : M bool := λ c,
  Some (bool_decide (Exists (λ t, pg_database_oid t = database_oid) (pg_database c)),
        set_pg_database (filter (λ t, pg_database_oid t ≠ database_oid)) c).

(** *** TableCatalog (pg_table) *)

Definition TableCatalog_InsertTable (table_oid : oid_t) (table_name : string)
    (database_oid : oid_t) (database_name : string) : M unit :=
  modify (set_pg_table (λ l, l ++
    [{| pg_table_oid := table_oid; pg_table_name := table_name;
        pg_table_database_oid := database_oid;
        pg_table_database_name := database_name |}])).

Definition TableCatalog_GetTableOid (table_name : string) : M oid_t :=
  gets (λ c,
    match list_find (λ t, pg_table_name t = table_name) (pg_table c) with
    | Some (_, t) => pg_table_oid t
    | None => INVALID_OID
    end).

Definition TableCatalog_GetTableOids (database_oid : oid_t) : M (list oid_t) :=
  gets (λ c,
    pg_table_oid <$> filter (λ t, pg_table_database_oid t = database_oid) (pg_table c)).

Definition TableCatalog_DeleteTable (table_oid : oid_t) : M bool := λ c,
  Some (bool_decide (Exists (λ t, pg_table_oid t = table_oid) (pg_table c)),
        set_pg_table (filter (λ t, pg_table_oid t ≠ table_oid)) c).

(** *** ColumnCatalog (pg_attribute) *)

Definition ColumnCatalog_InsertColumn (table_oid : oid_t) (column_name : string)
    (column_offset : oid_t) (column_type : TypeId) (is_inlined : bool)
    (constraints : list ConstraintType) : M unit :=
  modify (set_pg_attribute (λ l, l ++
    [{| pg_attribute_table_oid := table_oid; pg_attribute_name := column_name;
        pg_attribute_offset := column_offset; pg_attribute_type := column_type;
        pg_attribute_inlined := is_inlined;
        pg_attribute_constraints := constraints |}])).

Definition ColumnCatalog_DeleteColumn (table_oid : oid_t) (column_name : string)
    : M bool := λ c,
  Some (bool_decide (Exists (λ t, pg_attribute_table_oid t = table_oid
                                  ∧ pg_attribute_name t = column_name)
                            (pg_attribute c)),
        set_pg_attribute (filter (λ t, ¬ (pg_attribute_table_oid t = table_oid
                                          ∧ pg_attribute_name t = column_name))) c).

(** *** IndexCatalog (pg_index) *)

Definition IndexCatalog_Insert (index_oid : oid_t) (index_name : string)
    (table_oid database_oid : oid_t) (unique_keys : bool) : M unit :=
  modify (set_pg_index (λ l, l ++
    [{| pg_index_oid := index_oid; pg_index_name := index_name;
        pg_index_table_oid := table_oid; pg_index_database_oid := database_oid;
        pg_index_unique_keys := unique_keys |}])).

Definition IndexCatalog_GetTableidByOid (index_oid : oid_t) : M oid_t :=
  gets (λ c,
    match list_find (λ t, pg_index_oid t = index_oid) (pg_index c) with
    | Some (_, t) => pg_index_table_oid t
    | None => INVALID_OID
    end).

Definition IndexCatalog_DeleteByOid (index_oid : oid_t) : M bool := λ c,
  Some (bool_decide (Exists (λ t, pg_index_oid t = index_oid) (pg_index c)),
        set_pg_index (filter (λ t, pg_index_oid t ≠ index_oid)) c).

(** *** Lookups of [Catalog] *)

(** Find a database using its id: the first database of [databases_] that
    carries the oid, or null. *)
Definition GetDatabaseWithOid (db_oid : oid_t) : M (option (nat * Database)) :=
  gets (λ c, list_find (λ database, database_oid database = db_oid) (databases_ c)).

(** Find a database using its name: the oid comes from pg_database, the
    object from the live list. *)
Definition GetDatabaseWithName (database_name : string)
    : M (option (nat * Database)) :=
  database_oid ← DatabaseCatalog_GetDatabaseOid database_name;
  GetDatabaseWithOid database_oid.

Definition HasDatabase (db_oid : oid_t) : M bool :=
  database ← GetDatabaseWithOid db_oid;
  mret (negb (is_nullptr database)).

Definition GetTableWithOid (database_oid table_oid : oid_t)
    : M (option (nat * DataTable)) :=
  database ← GetDatabaseWithOid database_oid;
  match database with
  | Some (_, database) => mret (Database_GetTableWithOid table_oid database)
  | None => mret None
  end.

Definition GetDatabaseCount : M oid_t :=
  gets (λ c, Z.of_nat (length (databases_ c))).

(** [PL_ASSERT(database_offset < databases_.size())] guards the access. *)
Definition GetDatabaseWithOffset (database_offset : nat) : M Database := λ c,
  deref (databases_ c !! database_offset) c.

Definition GetTableWithName (database_name table_name : string)
    : M (option (nat * DataTable)) :=
  database ← GetDatabaseWithName database_name;
  match database with
  | Some (_, database) => mret (Database_GetTableWithName table_name database)
  | None => mret None
  end.

(** Writes through a [storage::Database *] and a [storage::DataTable *]. *)
Definition Database_at (database_ptr : nat) (f : Database → Database) : M unit :=
  modify (set_databases (alter f database_ptr)).

Definition DataTable_at (database_ptr table_ptr : nat) (f : DataTable → DataTable)
    : M unit :=
  Database_at database_ptr (set_tables (alter f table_ptr)).

(** *** CreateDatabase *)

Definition CreateDatabase (database_name : string) : M ResultType :=
  database_oid ← DatabaseCatalog_GetDatabaseOid database_name;
  if decide (database_oid ≠ INVALID_OID) then mret FAILURE
  else
    database_oid ← GetNextOid;
    let database := setDBName database_name (new_Database database_oid) in
    modify (set_databases (λ l, l ++ [database]));;
    DatabaseCatalog_InsertDatabase database_oid database_name;;
    mret SUCCESS.

(** *** AddDatabase *)

Definition AddDatabase (database : Database) : M unit :=
  modify (set_databases (λ l, l ++ [database]));;
  let database_name := "" in
  DatabaseCatalog_InsertDatabase
    (Z.lor (database_oid database) CatalogType_DATABASE) database_name.

(** *** CreatePrimaryIndex *)

(** The loop over the schema columns: [column_idx] counts the columns seen
    and the ordinals of the primary ones are pushed back in turn. *)
Definition find_primary_attrs (schema_columns : list Column) : list oid_t :=
  snd (fold_left
         (λ '(column_idx, key_attrs) column,
            (column_idx + 1,
             if IsPrimary column then key_attrs ++ [column_idx] else key_attrs))
         schema_columns (0, [])).

(** The loop in closed form: the ordinals it pushes when it starts counting
    at [k]. *)
Fixpoint primary_from (k : Z) (cols : list Column) : list oid_t :=
  match cols with
  | [] => []
  | col :: rest =>
    (if IsPrimary col then [k] else []) ++ primary_from (k + 1) rest
  end.

Definition CreatePrimaryIndex (database_name table_name : string) : M ResultType :=
  database ← GetDatabaseWithName database_name;
  match database with
  | Some (database_ptr, database) =>
    match Database_GetTableWithName table_name database with
    | None => mret FAILURE
    | Some (table_ptr, table) =>
      let schema := table_schema table in
      let key_attrs := find_primary_attrs (GetColumns schema) in
      let key_schema := SetIndexedColumns key_attrs (CopySchema schema key_attrs) in
      let index_name := (peloton.table_name table +:+ "_PKEY")%string in
      let unique_keys := true in
      index_oid ← GetNextOid;
      let index_metadata :=
        {| index_name := Upper index_name; index_oid := index_oid;
           index_table_oid := table_oid table;
           index_database_oid := database_oid database;
           index_type := BWTREE; index_constraint_type := PRIMARY_KEY;
           tuple_schema := schema; key_schema := key_schema;
           key_attrs := key_attrs; unique_keys := unique_keys |} in
      let pkey_index := IndexFactory_GetIndex index_metadata in
      DataTable_at database_ptr table_ptr (DataTable_AddIndex pkey_index);;
      mret SUCCESS
    end
  | None => mret FAILURE
  end.

(** The index CreatePrimaryIndex builds for [table] of [database] when the
    generator hands it [index_oid]. *)
Definition primary_key_index (index_oid : oid_t) (database : Database)
    (table : DataTable) : Index :=
  let schema := table_schema table in
  let key_attrs := find_primary_attrs (GetColumns schema) in
  IndexFactory_GetIndex
    {| index_name := Upper (table_name table +:+ "_PKEY");
       index_oid := index_oid;
       index_table_oid := table_oid table;
       index_database_oid := database_oid database;
       index_type := BWTREE; index_constraint_type := PRIMARY_KEY;
       tuple_schema := schema;
       key_schema := SetIndexedColumns key_attrs (CopySchema schema key_attrs);
       key_attrs := key_attrs; unique_keys := true |}.

(** *** CreateTable *)

(** The loop over the schema columns of the new table: one pg_attribute
    tuple per column, and [has_primary_key] set once a primary column is
    seen. *)
Fixpoint insert_columns (table_oid : oid_t) (schema_columns : list Column)
    (has_primary_key : bool) : M bool :=
  match schema_columns with
  | [] => mret has_primary_key
  | column :: rest =>
    ColumnCatalog_InsertColumn table_oid (column_name column)
      (column_offset column) (column_type column) (is_inlined column)
      (constraints column);;
    insert_columns table_oid rest
      (if IsPrimary column then true else has_primary_key)
  end.

(** The pg_attribute tuple the loop inserts for a column. *)
Definition column_tuple (table_oid : oid_t) (column : Column) : ColumnTuple :=
  {| pg_attribute_table_oid := table_oid;
     pg_attribute_name := column_name column;
     pg_attribute_offset := column_offset column;
     pg_attribute_type := column_type column;
     pg_attribute_inlined := is_inlined column;
     pg_attribute_constraints := constraints column |}.

(** The function ends in [return result;], and [result] is declared and
    assigned only by the statement guarded by [has_primary_key]: on the
    other path the source names no value to return, which is [None] here. *)
Definition CreateTable (database_name table_name : string) (schema : Schema)
    : M (option ResultType) :=
  database ← GetDatabaseWithName database_name;
  match database with
  | None => mret (Some FAILURE)
  | Some (database_ptr, database) =>
    match Database_GetTableWithName table_name database with
    | Some _ => mret (Some FAILURE)
    | None =>
      let database_oid := database_oid database in
      table_oid ← GetNextOid;
      let table :=
        TableFactory_GetDataTable database_oid table_oid schema table_name in
      Database_at database_ptr (Database_AddTable table);;
      TableCatalog_InsertTable table_oid table_name database_oid database_name;;
      let schema_columns := GetColumns (table_schema table) in
      has_primary_key ← insert_columns table_oid schema_columns false;
      if has_primary_key : bool return M (option ResultType)
      then result ← CreatePrimaryIndex database_name table_name;
           mret (Some result)
      else mret None
    end
  end.

(** *** CreateIndex *)

(** The inner loop of the attribute check: every column whose name equals
    [attr] has its position [i] pushed back. *)
Fixpoint push_matching (attr : string) (i : nat) (columns : list Column)
    (key_attrs : list oid_t) : list oid_t :=
  match columns with
  | [] => key_attrs
  | column :: rest =>
    push_matching attr (S i) rest
      (if decide (attr = column_name column)
       then key_attrs ++ [Z.of_nat i] else key_attrs)
  end.

(** The columns that carry the name [attr]. *)
Definition named (attr : string) (cols : list Column) : list Column :=
  filter (λ col, attr = column_name col) cols.

(** The outer loop, over the requested attribute names. *)
Definition resolve_key_attrs (columns : list Column) (index_attr : list string)
    : list oid_t :=
  fold_left (λ key_attrs attr, push_matching attr 0 columns key_attrs)
            index_attr [].

Definition CreateIndex (database_name table_name : string)
    (index_attr : list string) (index_name : string) (unique_keys : bool)
    (index_type : IndexType) : M ResultType :=
  database_oid ← DatabaseCatalog_GetDatabaseOid database_name;
  if decide (database_oid = INVALID_OID) then mret FAILURE else
  table_oid ← TableCatalog_GetTableOid table_name;
  if decide (table_oid = INVALID_OID) then mret FAILURE else
  database ← GetDatabaseWithOid database_oid;
  match database with
  | None => mret FAILURE
  | Some (database_ptr, database) =>
    match Database_GetTableWithOid table_oid database with
    | None => mret FAILURE
    | Some (table_ptr, table) =>
      let schema := table_schema table in
      let key_attrs := resolve_key_attrs (GetColumns schema) index_attr in
      if decide (length key_attrs ≠ length index_attr) then mret FAILURE else
      let key_schema := SetIndexedColumns key_attrs (CopySchema schema key_attrs) in
      index_oid ← GetNextOid;
      let index_metadata :=
        if negb unique_keys
        then {| index_name := index_name; index_oid := index_oid;
                index_table_oid := peloton.table_oid table;
                index_database_oid := peloton.database_oid database;
                index_type := index_type; index_constraint_type := DEFAULT;
                tuple_schema := schema; key_schema := key_schema;
                key_attrs := key_attrs; unique_keys := true |}
        else {| index_name := index_name; index_oid := index_oid;
                index_table_oid := peloton.table_oid table;
                index_database_oid := peloton.database_oid database;
                index_type := index_type; index_constraint_type := UNIQUE;
                tuple_schema := schema; key_schema := key_schema;
                key_attrs := key_attrs; unique_keys := true |} in
      let key_index := IndexFactory_GetIndex index_metadata in
      DataTable_at database_ptr table_ptr (DataTable_AddIndex key_index);;
      IndexCatalog_Insert index_oid index_name table_oid database_oid unique_keys;;
      mret SUCCESS
    end
  end.

(** *** DropIndex *)

(** The first test returns FAILURE when the database IS found; past it
    [database] is null and [database->GetTableWithOid] dereferences it. *)
Definition DropIndex (database_oid index_oid : oid_t) : M ResultType :=
  database ← GetDatabaseWithOid database_oid;
  if negb (is_nullptr database) then mret FAILURE else
  table_oid ← IndexCatalog_GetTableidByOid index_oid;
  if decide (table_oid = INVALID_OID) then mret FAILURE else
  '(database_ptr, database_obj) ← deref database;
  match Database_GetTableWithOid table_oid database_obj with
  | None => mret FAILURE
  | Some (table_ptr, table) =>
    DataTable_at database_ptr table_ptr (DataTable_DropIndexWithOid index_oid);;
    IndexCatalog_DeleteByOid index_oid;;
    mret SUCCESS
  end.

Definition GetIndexWithOid (database_oid table_oid index_oid : oid_t)
    : M (option Index) :=
  table ← GetTableWithOid database_oid table_oid;
  match table with
  | Some (_, table) => mret (DataTable_GetIndexWithOid index_oid table)
  | None => mret None
  end.

(** *** DropDatabaseWithName *)

Definition DropDatabaseWithName (database_name : string) : M ResultType :=
  database_oid ← DatabaseCatalog_GetDatabaseOid database_name;
  if decide (database_oid = INVALID_OID) then mret FAILURE else
  deleted ← DatabaseCatalog_DeleteDatabase database_oid;
  if negb deleted then mret FAILURE else mret SUCCESS.

(** *** DropTable and DropTableWithOid *)

(** Both functions test [database == nullptr] a second time where the table
    lookup is to be checked, so a null [table] reaches [table->...].  The
    column loop reads the table after it has left its database; the model
    reads the object as it was found. *)
Fixpoint delete_columns (table_oid : oid_t) (schema_columns : list Column)
    : M unit :=
  match schema_columns with
  | [] => mret tt
  | column :: rest =>
    ColumnCatalog_DeleteColumn table_oid (column_name column);;
    delete_columns table_oid rest
  end.

Definition DropTable (database_name table_name : string) : M ResultType :=
  database ← GetDatabaseWithName database_name;
  if is_nullptr database then mret FAILURE else
  '(database_ptr, database_obj) ← deref database;
  let table := Database_GetTableWithName table_name database_obj in
  if is_nullptr database then mret FAILURE else
  '(table_ptr, table_obj) ← deref table;
  let table_oid := peloton.table_oid table_obj in
  DataTable_at database_ptr table_ptr DataTable_DropIndexes;;
  Database_at database_ptr (Database_DropTableWithOid table_oid);;
  TableCatalog_DeleteTable table_oid;;
  delete_columns table_oid (GetColumns (table_schema table_obj));;
  mret SUCCESS.

Definition DropTableWithOid (database_oid table_oid : oid_t) : M ResultType :=
  database ← GetDatabaseWithOid database_oid;
  if is_nullptr database then mret FAILURE else
  '(database_ptr, database_obj) ← deref database;
  let table := Database_GetTableWithOid table_oid database_obj in
  if is_nullptr database then mret FAILURE else
  '(table_ptr, table_obj) ← deref table;
  DataTable_at database_ptr table_ptr DataTable_DropIndexes;;
  Database_at database_ptr (Database_DropTableWithOid table_oid);;
  TableCatalog_DeleteTable table_oid;;
  delete_columns table_oid (GetColumns (table_schema table_obj));;
  mret SUCCESS.

(** *** DropDatabaseWithOid *)

Definition DropDatabaseWithOid (database_oid : oid_t) : M ResultType :=
  table_oids ← TableCatalog_GetTableOids database_oid;
  for_each table_oids (λ table_oid,
    DropTableWithOid database_oid table_oid;; mret tt);;
  deleted ← DatabaseCatalog_DeleteDatabase database_oid;
  if negb deleted then mret FAILURE else
  it ← GetDatabaseWithOid database_oid;
  match it with
  | Some (database_offset, _) =>
    modify (set_databases (delete database_offset));;
    mret SUCCESS
  | None => mret FAILURE
  end.

(** ** Sequences of DDL operations and the two sides of the bookkeeping *)

Inductive DDL :=
  | OpCreateDatabase (database_name : string)
  | OpCreateTable (database_name table_name : string) (schema : Schema)
  | OpCreateIndex (database_name table_name : string) (index_attr : list string)
      (index_name : string) (unique_keys : bool) (index_type : IndexType)
  | OpCreatePrimaryIndex (database_name table_name : string)
  | OpDropTable (database_name table_name : string)
  | OpDropTableWithOid (database_oid table_oid : oid_t)
  | OpDropIndex (database_oid index_oid : oid_t)
  | OpDropDatabaseWithOid (database_oid : oid_t).

(** The result an operation reports, when it reports one. *)
Definition run_op (op : DDL) : M (option ResultType) :=
  match op with
  | OpCreateDatabase n => Some <$> CreateDatabase n
  | OpCreateTable d t s => CreateTable d t s
  | OpCreateIndex d t a n u ty => Some <$> CreateIndex d t a n u ty
  | OpCreatePrimaryIndex d t => Some <$> CreatePrimaryIndex d t
  | OpDropTable d t => Some <$> DropTable d t
  | OpDropTableWithOid d t => Some <$> DropTableWithOid d t
  | OpDropIndex d i => Some <$> DropIndex d i
  | OpDropDatabaseWithOid d => Some <$> DropDatabaseWithOid d
  end.

(** Runs the operations in order; the final state is returned when every
    one of them reported SUCCESS. *)
Fixpoint run_all_success (ops : list DDL) (c : Catalog) : option Catalog :=
  match ops with
  | [] => Some c
  | op :: rest =>
    match run_op op c with
    | Some (Some SUCCESS, c') => run_all_success rest c'
    | _ => None
    end
  end.

Definition live_tables (c : Catalog) : list DataTable :=
  database ← databases_ c; tables database.

Definition live_indexes (c : Catalog) : list Index :=
  table ← live_tables c; indexes table.

Definition live_database_oids (c : Catalog) : list oid_t :=
  database_oid <$> databases_ c.
Definition live_table_oids (c : Catalog) : list oid_t :=
  table_oid <$> live_tables c.
Definition live_index_oids (c : Catalog) : list oid_t :=
  Index_GetOid <$> live_indexes c.
(** A column has no oid of its own: pg_attribute identifies it by the oid
    of its table and its name. *)
Definition live_column_keys (c : Catalog) : list (oid_t * string) :=
  table ← live_tables c;
  (λ column, (table_oid table, column_name column))
    <$> GetColumns (table_schema table).

Definition catalog_database_oids (c : Catalog) : list oid_t :=
  pg_database_oid <$> pg_database c.
Definition catalog_table_oids (c : Catalog) : list oid_t :=
  pg_table_oid <$> pg_table c.
Definition catalog_index_oids (c : Catalog) : list oid_t :=
  pg_index_oid <$> pg_index c.
Definition catalog_column_keys (c : Catalog) : list (oid_t * string) :=
  (λ t, (pg_attribute_table_oid t, pg_attribute_name t)) <$> pg_attribute c.

Definition same_set {A} (l k : list A) : Prop := ∀ x, x ∈ l ↔ x ∈ k.

Definition dual_bookkeeping (c : Catalog) : Prop :=
  same_set (live_database_oids c) (catalog_database_oids c)
  ∧ same_set (live_table_oids c) (catalog_table_oids c)
  ∧ same_set (live_column_keys c) (catalog_column_keys c)
  ∧ same_set (live_index_oids c) (catalog_index_oids c).

End Catalog.

(** ** The function registry ([functions_] and its three accessors) *)

(** The implementations the registry points to
    (expression/string_functions.h and expression/date_functions.h). *)
Inductive BuiltinFunction :=
  | StringFunctions_Ascii | StringFunctions_Chr | StringFunctions_Substr
  | StringFunctions_Concat | StringFunctions_CharLength
  | StringFunctions_OctetLength | StringFunctions_Repeat
  | StringFunctions_Replace | StringFunctions_LTrim | StringFunctions_RTrim
  | StringFunctions_BTrim | DateFunctions_Extract.

Record FunctionData := {
  func_name_ : string;
  argument_types_ : list TypeId;
  return_type_ : TypeId;
  func_ptr_ : BuiltinFunction;
}.

(** The three functions read and write [functions_] only.  A call ends
    normally, or in a failed [PL_ASSERT], or in a thrown [Exception]. *)
Inductive Outcome (A : Type) :=
  | Normal (a : A) (functions_ : gmap string FunctionData)
  | AssertionFailed
  | Thrown (what : string).
Arguments Normal {A} _ _.
Arguments AssertionFailed {A}.
Arguments Thrown {A} _.

Definition Registry (A : Type) : Type := gmap string FunctionData → Outcome A.

#[global] Instance Registry_ret : MRet Registry := λ A a functions_,
  Normal a functions_.
#[global] Instance Registry_bind : MBind Registry := λ A B k m functions_,
  match m functions_ with
  | Normal a functions_' => k a functions_'
  | AssertionFailed => AssertionFailed
  | Thrown what => Thrown what
  end.

(** [PL_ASSERT(functions_.count(name) == 0)], then the assignment. *)
Definition AddFunction (name : string) (argument_types : list TypeId)
    (return_type : TypeId) (func_ptr : BuiltinFunction) : Registry unit :=
  λ functions_,
    if decide (functions_ !! name = None)
    then Normal tt
           (<[name := {| func_name_ := name; argument_types_ := argument_types;
                         return_type_ := return_type; func_ptr_ := func_ptr |}]>
              functions_)
    else AssertionFailed.

Definition GetFunction (name : string) : Registry FunctionData := λ functions_,
  match functions_ !! name with
  | None => Thrown ("function " +:+ name +:+ " not found.")
  | Some data => Normal data functions_
  end.

Definition RemoveFunction (name : string) : Registry unit := λ functions_,
  Normal tt (delete name functions_).

Definition InitializeFunctions : Registry unit :=
  AddFunction "ascii" [VARCHAR] INTEGER StringFunctions_Ascii;;
  AddFunction "chr" [INTEGER] VARCHAR StringFunctions_Chr;;
  AddFunction "substr" [VARCHAR; INTEGER; INTEGER] VARCHAR StringFunctions_Substr;;
  AddFunction "concat" [VARCHAR; VARCHAR] VARCHAR StringFunctions_Concat;;
  AddFunction "char_length" [VARCHAR] INTEGER StringFunctions_CharLength;;
  AddFunction "octet_length" [VARCHAR] INTEGER StringFunctions_OctetLength;;
  AddFunction "repeat" [VARCHAR; INTEGER] VARCHAR StringFunctions_Repeat;;
  AddFunction "replace" [VARCHAR; VARCHAR; VARCHAR] VARCHAR StringFunctions_Replace;;
  AddFunction "ltrim" [VARCHAR; VARCHAR] VARCHAR StringFunctions_LTrim;;
  AddFunction "rtrim" [VARCHAR; VARCHAR] VARCHAR StringFunctions_RTrim;;
  AddFunction "btrim" [VARCHAR; VARCHAR] VARCHAR StringFunctions_BTrim;;
  AddFunction "extract" [INTEGER; TIMESTAMP] DECIMAL DateFunctions_Extract.

(** The registrations of [InitializeFunctions], in order. *)
Definition builtin_functions : list FunctionData :=
  [ {| func_name_ := "ascii"; argument_types_ := [VARCHAR];
       return_type_ := INTEGER; func_ptr_ := StringFunctions_Ascii |};
    {| func_name_ := "chr"; argument_types_ := [INTEGER];
       return_type_ := VARCHAR; func_ptr_ := StringFunctions_Chr |};
    {| func_name_ := "substr"; argument_types_ := [VARCHAR; INTEGER; INTEGER];
       return_type_ := VARCHAR; func_ptr_ := StringFunctions_Substr |};
    {| func_name_ := "concat"; argument_types_ := [VARCHAR; VARCHAR];
       return_type_ := VARCHAR; func_ptr_ := StringFunctions_Concat |};
    {| func_name_ := "char_length"; argument_types_ := [VARCHAR];
       return_type_ := INTEGER; func_ptr_ := StringFunctions_CharLength |};
    {| func_name_ := "octet_length"; argument_types_ := [VARCHAR];
       return_type_ := INTEGER; func_ptr_ := StringFunctions_OctetLength |};
    {| func_name_ := "repeat"; argument_types_ := [VARCHAR; INTEGER];
       return_type_ := VARCHAR; func_ptr_ := StringFunctions_Repeat |};
    {| func_name_ := "replace"; argument_types_ := [VARCHAR; VARCHAR; VARCHAR];
       return_type_ := VARCHAR; func_ptr_ := StringFunctions_Replace |};
    {| func_name_ := "ltrim"; argument_types_ := [VARCHAR; VARCHAR];
       return_type_ := VARCHAR; func_ptr_ := StringFunctions_LTrim |};
    {| func_name_ := "rtrim"; argument_types_ := [VARCHAR; VARCHAR];
       return_type_ := VARCHAR; func_ptr_ := StringFunctions_RTrim |};
    {| func_name_ := "btrim"; argument_types_ := [VARCHAR; VARCHAR];
       return_type_ := VARCHAR; func_ptr_ := StringFunctions_BTrim |};
    {| func_name_ := "extract"; argument_types_ := [INTEGER; TIMESTAMP];
       return_type_ := DECIMAL; func_ptr_ := DateFunctions_Extract |} ].

(** Registers the entries of a list, first to last. *)
Fixpoint AddFunctions (entries : list FunctionData) : Registry unit :=
  match entries with
  | [] => mret tt
  | data :: rest =>
    AddFunction (func_name_ data) (argument_types_ data) (return_type_ data)
                (func_ptr_ data);;
    AddFunctions rest
  end.

(** ** Concrete states on which the code is run *)

(** An instance of the two constants: the largest 32-bit value as the
    sentinel and bit 24 as the database tag. *)
Definition constants32 : Constants :=
  {| INVALID_OID := 4294967295; CatalogType_DATABASE := 16777216 |}.

(** A catalog with no database and no tuple. *)
Definition empty_catalog : Catalog :=
  {| databases_ := []; pg_database := []; pg_table := []; pg_attribute := [];
     pg_index := []; oid_ := 1 |}.

Definition integer_column (name : string) (offset : oid_t)
    (constraints : list ConstraintType) : Column :=
  {| column_name := name; column_offset := offset; column_type := INTEGER;
     is_inlined := true; constraints := constraints |}.

Definition new_Schema (columns : list Column) : Schema :=
  {| columns := columns; indexed_columns := [] |}.

(** A database "db" holding a table "t" with columns
    [a:PRIMARY, b, c:PRIMARY] and no index yet. *)
Definition abc_table : DataTable :=
  TableFactory_GetDataTable 1 2
    (new_Schema [integer_column "a" 0 [PRIMARY]; integer_column "b" 1 [];
                 integer_column "c" 2 [PRIMARY]]) "t".

Definition abc_database : Database :=
  {| database_oid := 1; database_name := "db"; tables := [abc_table] |}.

Definition abc_catalog : Catalog :=
  {| databases_ := [abc_database];
     pg_database := [{| pg_database_oid := 1; pg_database_name := "db" |}];
     pg_table := [{| pg_table_oid := 2; pg_table_name := "t";
                     pg_table_database_oid := 1;
                     pg_table_database_name := "db" |}];
     pg_attribute := [];
     pg_index := [];
     oid_ := 3 |}.

(** A catalog with the database "db" (oid 1) and nothing else, as
    CreateDatabase leaves it. *)
Definition db_catalog : Catalog :=
  {| databases_ := [{| database_oid := 1; database_name := "db"; tables := [] |}];
     pg_database := [{| pg_database_oid := 1; pg_database_name := "db" |}];
     pg_table := []; pg_attribute := []; pg_index := []; oid_ := 2 |}.

(** A catalog whose pg_database has a tuple (oid 9) without a live database. *)
Definition orphan_catalog : Catalog :=
  {| databases_ := [];
     pg_database := [{| pg_database_oid := 9; pg_database_name := "gone" |}];
     pg_table := []; pg_attribute := []; pg_index := []; oid_ := 10 |}.

(** [abc_catalog] with the three pg_attribute tuples of its table: a catalog
    whose live objects and catalog tuples agree. *)
Definition consistent_catalog : Catalog :=
  {| databases_ := databases_ abc_catalog;
     pg_database := pg_database abc_catalog;
     pg_table := pg_table abc_catalog;
     pg_attribute := column_tuple 2 <$> GetColumns (table_schema abc_table);
     pg_index := [];
     oid_ := 3 |}.

(** The DDL prefixes the runs below start from.  Oids are handed out from 1:
    the database gets 1, the table 2, its primary-key index 3. *)
Definition create_db : list DDL := [OpCreateDatabase "db"].

Definition create_t_x : list DDL :=
  [OpCreateDatabase "db";
   OpCreateTable "db" "t" (new_Schema [integer_column "x" 0 [PRIMARY]])].

Definition create_t_xx : list DDL :=
  [OpCreateDatabase "db";
   OpCreateTable "db" "t"
     (new_Schema [integer_column "x" 0 [PRIMARY]; integer_column "x" 1 []])].

End peloton.

Module nstore.

(** ** Values, schemas and physical tiles (common/value.h, storage/tile.h) *)

Inductive Value :=
  | IntegerValue (v : Z)
  | TinyIntValue (v : Z)
  | StringValue (s : string)
  | NullValue.

Inductive ValueType :=
  VALUE_TYPE_INTEGER | VALUE_TYPE_TINYINT | VALUE_TYPE_VARCHAR.

Record ColumnInfo := {
  type : ValueType;
  is_inlined : bool;
}.

Definition Schema := list ColumnInfo.

Definition GetColumnInfo (schema : Schema) (column_id : nat) : option ColumnInfo :=
  schema !! column_id.

(** A tile stores its tuples row by row; a cell of an allocated slot that
    was never written holds [NullValue]. *)
Record Tile := {
  tile_schema : Schema;
  tuples : list (list Value);
}.

Definition Tile_GetColumnCount (tile : Tile) : nat := length (tile_schema tile).
Definition Tile_GetTupleCount (tile : Tile) : nat := length (tuples tile).

Definition Tile_GetValue (tile : Tile) (tuple_id column_id : nat) : option Value :=
  tuples tile !! tuple_id ≫= (.!! column_id).

Definition Tile_SetValue (value : Value) (tuple_id column_id : nat) (tile : Tile)
    : Tile :=
  {| tile_schema := tile_schema tile;
     tuples := alter (λ tuple, <[column_id := value]> tuple) tuple_id (tuples tile) |}.

Definition TileFactory_GetTempTile (schema : Schema) (tuple_count : nat) : Tile :=
  {| tile_schema := schema;
     tuples := replicate tuple_count (replicate (length schema) NullValue) |}.

(** ** The tile group of the test harness (executor/executor_tests_util.h) *)

Record TileGroup := { tiles : list Tile }.

(** Splits a tuple laid out over the appended tile schemas and stores each
    part in its tile. *)
Fixpoint InsertTuple_tiles (tuple : list Value) (tiles : list Tile) : list Tile :=
  match tiles with
  | [] => []
  | tile :: rest =>
    {| tile_schema := tile_schema tile;
       tuples := tuples tile ++ [take (Tile_GetColumnCount tile) tuple] |}
    :: InsertTuple_tiles (drop (Tile_GetColumnCount tile) tuple) rest
  end.

Definition InsertTuple (tuple : list Value) (tile_group : TileGroup) : TileGroup :=
  {| tiles := InsertTuple_tiles tuple (tiles tile_group) |}.

Definition GetTile (tile_group : TileGroup) (tile_offset : nat) : option Tile :=
  tiles tile_group !! tile_offset.

(** The tile group the tests start from: two tiles of two columns each, as
    [PopulateTiles] asserts and fills them. *)
Definition CreateSimpleTileGroup : TileGroup :=
  {| tiles :=
       [ {| tile_schema := [ {| type := VALUE_TYPE_INTEGER; is_inlined := true |};
                             {| type := VALUE_TYPE_INTEGER; is_inlined := true |} ];
            tuples := [] |};
         {| tile_schema := [ {| type := VALUE_TYPE_TINYINT; is_inlined := true |};
                             {| type := VALUE_TYPE_VARCHAR; is_inlined := false |} ];
            tuples := [] |} ] |}.

Definition to_string (n : nat) : string :=
  NilEmpty.string_of_uint (Nat.to_uint n).

(** [PopulateTiles] of the test file: row [i] is
    (10i, 10i+1, 10i+2 as a tiny int, the decimal text of 10i+3). *)
Definition PopulateTiles (tile_group : TileGroup) (num_rows : nat) : TileGroup :=
  fold_left
    (λ tile_group i,
       let tuple :=
         [ IntegerValue (10 * Z.of_nat i);
           IntegerValue (10 * Z.of_nat i + 1);
           TinyIntValue (10 * Z.of_nat i + 2);
           StringValue (to_string (10 * i + 3)) ] in
       InsertTuple tuple tile_group)
    (seq 0 num_rows) tile_group.

(** ** Logical tiles (executor/logical_tile.h) *)

(** A column of a logical tile names a base tile, by its position among the
    base tiles of the logical tile, and a column of that base tile. *)
Record ColumnPointer := {
  base_tile : nat;
  origin_column_id : nat;
}.

Record LogicalTile := {
  base_tiles : list Tile;
  schema : list ColumnPointer;
  position_list : list nat;
}.

Definition NumCols (tile : LogicalTile) : nat := length (schema tile).

Definition GetBaseTile (tile : LogicalTile) (column_id : nat) : option Tile :=
  cp ← schema tile !! column_id;
  base_tiles tile !! base_tile cp.

(** [LogicalTile::GetValue(column_id, tuple_id)]: the column first. *)
Definition GetValue (tile : LogicalTile) (column_id tuple_id : nat) : option Value :=
  cp ← schema tile !! column_id;
  base ← base_tiles tile !! base_tile cp;
  base_tuple_id ← position_list tile !! tuple_id;
  Tile_GetValue base base_tuple_id (origin_column_id cp).

(** [LogicalTileFactory::WrapBaseTiles]: every column of every base tile, in
    order, with all the tuples visible. *)
Definition WrapBaseTiles (base_tile_list : list Tile) : LogicalTile :=
  {| base_tiles := base_tile_list;
     schema :=
       mjoin (imap (λ b tile,
                      (λ col, {| base_tile := b; origin_column_id := col |})
                        <$> seq 0 (Tile_GetColumnCount tile))
                   base_tile_list);
     position_list :=
       match base_tile_list with
       | [] => []
       | tile :: _ => seq 0 (Tile_GetTupleCount tile)
       end |}.

(** ** The materialization plan node (planner/materialization_node.cpp) *)

Inductive PlanNodeType := PLAN_NODE_TYPE_INVALID | PLAN_NODE_TYPE_MATERIALIZE.

Record MaterializationNode := {
  old_to_new_cols_ : gmap nat nat;
  schema_ : Schema;
}.

Definition new_MaterializationNode (old_to_new_cols : gmap nat nat)
    (schema : Schema) : MaterializationNode :=
  {| old_to_new_cols_ := old_to_new_cols; schema_ := schema |}.

Definition old_to_new_cols (node : MaterializationNode) : gmap nat nat :=
  old_to_new_cols_ node.

Definition node_schema (node : MaterializationNode) : Schema := schema_ node.

Definition GetPlanNodeType (node : MaterializationNode) : PlanNodeType :=
  PLAN_NODE_TYPE_INVALID.

Definition debugInfo (node : MaterializationNode) (spacer : string) : string := "".

(** ** The materialization executor *)

(** Modelled from the spec: [MaterializationExecutor]
    (executor/materialization_executor.cpp is not in src).  The plan's
    old-to-new column map is partitioned by the base tile each old column
    belongs to; one physical tile is allocated with the schema carried by
    the plan node ([MaterializationNode::schema], which is in src), sized to
    the visible rows; every visible row of every mapped column is copied,
    group by group, to its target ordinal; the result wraps the produced
    tile.  The spec's words for the allocation are "one new physical tile
    per distinct set of contributing base tiles" and "for each group,
    allocate one new physical tile"; the test suite in src checks that the
    three output columns of a two-base-tile input are backed by one tile
    with the plan's schema, and the model follows the test. *)
Definition GenerateTileToColMap (old_to_new_cols : gmap nat nat)
    (source_tile : LogicalTile) : gmap nat (list nat) :=
  map_fold
    (λ old_col _ tile_to_cols,
       match schema source_tile !! old_col with
       | Some cp =>
         partial_alter (λ cols, Some (default [] cols ++ [old_col]))
                       (base_tile cp) tile_to_cols
       | None => tile_to_cols
       end)
    ∅ old_to_new_cols.

(** Copies one column of the source into the destination tile: every
    visible row, value by value. *)
Definition MaterializeColumn (source_tile : LogicalTile) (old_col new_col : nat)
    (dest_tile : Tile) : Tile :=
  fold_left
    (λ dest new_tuple_id,
       match GetValue source_tile old_col new_tuple_id with
       | Some value => Tile_SetValue value new_tuple_id new_col dest
       | None => dest
       end)
    (seq 0 (length (position_list source_tile))) dest_tile.

Definition MaterializeByTiles (source_tile : LogicalTile)
    (old_to_new_cols : gmap nat nat) (tile_to_cols : gmap nat (list nat))
    (dest_tile : Tile) : Tile :=
  map_fold
    (λ _ old_column_ids dest,
       fold_left
         (λ dest old_col,
            match old_to_new_cols !! old_col with
            | Some new_col => MaterializeColumn source_tile old_col new_col dest
            | None => dest
            end)
         old_column_ids dest)
    dest_tile tile_to_cols.

Definition Materialize (node : MaterializationNode) (source_tile : LogicalTile)
    : LogicalTile :=
  let tile_to_cols := GenerateTileToColMap (old_to_new_cols node) source_tile in
  let num_tuples := length (position_list source_tile) in
  let dest_tile := TileFactory_GetTempTile (node_schema node) num_tuples in
  let dest_tile :=
    MaterializeByTiles source_tile (old_to_new_cols node) tile_to_cols dest_tile in
  WrapBaseTiles [dest_tile].

(** ** The plan of the reorder test (TwoBaseTilesWithReorderTest) *)

(** The output schema: column 1 of the second base tile, then columns 1 and
    0 of the first. *)
Definition reorder_output_schema (source_base_tiles : list Tile) : Schema :=
  omap (λ '(b, col), tile ← source_base_tiles !! b;
                        GetColumnInfo (tile_schema tile) col)
       [(1, 1); (0, 1); (0, 0)]%nat.

(** [old_to_new_cols[3] = 0; old_to_new_cols[1] = 1; old_to_new_cols[0] = 2]. *)
Definition reorder_old_to_new_cols : gmap nat nat :=
  <[0%nat := 2%nat]> (<[1%nat := 1%nat]> (<[3%nat := 0%nat]> ∅)).

Definition reorder_node (source_base_tiles : list Tile) : MaterializationNode :=
  new_MaterializationNode reorder_old_to_new_cols
    (reorder_output_schema source_base_tiles).

(** The interface a child executor offers to its parent. *)
Class AbstractExecutor (E : Type) := {
  SubInit : E → bool * E;
  SubGetNextTile : E → option LogicalTile * E;
}.

(** The mock child of the test suite: the values its calls are expected to
    return, in order; a call past the expectations returns the default. *)
Record MockExecutor := {
  init_returns : list bool;
  tile_returns : list (option LogicalTile);
}.

#[global] Instance MockExecutor_executor : AbstractExecutor MockExecutor := {|
  SubInit m :=
    match init_returns m with
    | [] => (false, m)
    | r :: rest => (r, {| init_returns := rest; tile_returns := tile_returns m |})
    end;
  SubGetNextTile m :=
    match tile_returns m with
    | [] => (None, m)
    | r :: rest => (r, {| init_returns := init_returns m; tile_returns := rest |})
    end;
|}.

Inductive ExecutorState := UNINITIALIZED | READY | PRODUCING | EXHAUSTED.

Record MaterializationExecutor (E : Type) := {
  node : MaterializationNode;
  state : ExecutorState;
  child : E;
}.
Arguments node {E} _.
Arguments state {E} _.
Arguments child {E} _.

Definition new_MaterializationExecutor {E} (node : MaterializationNode) (child : E)
    : MaterializationExecutor E :=
  {| node := node; state := UNINITIALIZED; child := child |}.

Section Executor.

Context {E : Type} `{!AbstractExecutor E}.

(** Modelled from the spec: initialization forwards to the single child and
    fails if the child fails. *)
Definition Init (executor : MaterializationExecutor E)
    : bool * MaterializationExecutor E :=
  let '(ok, child') := SubInit (child executor) in
  if ok
  then (true, {| node := node executor; state := READY; child := child' |})
  else (false, {| node := node executor; state := state executor; child := child' |}).

(** Modelled from the spec: [GetNextTile] pulls exactly one logical tile
    from the child; on end-of-stream it returns no tile and the executor
    becomes EXHAUSTED, a state it does not leave; otherwise it returns the
    materialized tile.  Before initialization there is nothing to pull. *)
Definition GetNextTile (executor : MaterializationExecutor E)
    : option LogicalTile * MaterializationExecutor E :=
  match state executor with
  | UNINITIALIZED | EXHAUSTED => (None, executor)
  | READY | PRODUCING =>
    let '(source_tile, child') := SubGetNextTile (child executor) in
    match source_tile with
    | None =>
      (None, {| node := node executor; state := EXHAUSTED; child := child' |})
    | Some source_tile =>
      (Some (Materialize (node executor) source_tile),
       {| node := node executor; state := PRODUCING; child := child' |})
    end
  end.

(** [n] further calls, keeping what each of them returned. *)
Fixpoint GetNextTiles (n : nat) (executor : MaterializationExecutor E)
    : list (option LogicalTile) * MaterializationExecutor E :=
  match n with
  | O => ([], executor)
  | S n' =>
    let '(tile, executor') := GetNextTile executor in
    let '(rest, executor'') := GetNextTiles n' executor' in
    (tile :: rest, executor'')
  end.

End Executor.

(** ** The set-up of TwoBaseTilesWithReorderTest *)

(** The two tiles of the populated tile group ([tuple_count] is 9). *)
Definition test_tile (tile_offset : nat) : Tile :=
  default (TileFactory_GetTempTile [] 0)
          (GetTile (PopulateTiles CreateSimpleTileGroup 9) tile_offset).

Definition source_base_tiles : list Tile := [test_tile 0; test_tile 1].

(** The mock child: SubInit returns true once; SubGetNextTile returns the
    source logical tile, then null. *)
Definition child_executor : MockExecutor :=
  {| init_returns := [true];
     tile_returns := [Some (WrapBaseTiles source_base_tiles); None] |}.

(** The executor after [executor.Init()]. *)
Definition reorder_test_executor : MaterializationExecutor MockExecutor :=
  (Init (new_MaterializationExecutor (reorder_node source_base_tiles)
                                     child_executor)).2.

End nstore.

(** * Properties of the catalog *)

Section CatalogProperties.

Import peloton.
Context {K : Constants}.

Implicit Types (c : Catalog) (database : Database) (table : DataTable).

(** ** Upper-casing *)

Lemma Upper_app (s t : string) : Upper (s +:+ t) = (Upper s +:+ Upper t)%string.
Proof. induction s as [|ch s IH]; simpl; [done|]. by rewrite IH. Qed.

Lemma Upper_PKEY : Upper "_PKEY" = "_PKEY"%string.
Proof. reflexivity. Qed.

(** ** The primary-attribute loop *)

Lemma find_primary_attrs_loop (cols : list Column) (k : Z) (acc : list oid_t) :
  fold_left
    (λ '(column_idx, key_attrs) column,
       (column_idx + 1,
        if IsPrimary column then key_attrs ++ [column_idx] else key_attrs))
    cols (k, acc)
  = (k + Z.of_nat (length cols), acc ++ primary_from k cols).
Proof.
  revert k acc. induction cols as [|col cols IH]; intros k acc; simpl.
  - f_equal; [lia | by rewrite app_nil_r].
  - rewrite IH. f_equal; [lia|].
    destruct (IsPrimary col); simpl; [by rewrite <- app_assoc | done].
Qed.

Lemma find_primary_attrs_eq (cols : list Column) :
  find_primary_attrs cols = primary_from 0 cols.
Proof. unfold find_primary_attrs. by rewrite find_primary_attrs_loop. Qed.

Lemma primary_from_elem (cols : list Column) (k z : Z) :
  z ∈ primary_from k cols ↔
  k ≤ z ∧ ∃ col, cols !! Z.to_nat (z - k) = Some col ∧ IsPrimary col = true.
Proof.
  revert k. induction cols as [|col cols IH]; intros k; simpl.
  - split; [by intros ?%elem_of_nil | by intros (_ & ? & ? & _)].
  - rewrite elem_of_app, IH. split.
    + intros [Hz | (Hk & col' & Hl & Hp)].
      * destruct (IsPrimary col) eqn:Hp; [|by apply elem_of_nil in Hz].
        apply list_elem_of_singleton in Hz as ->. split; [lia|].
        exists col. by replace (k - k) with 0 by lia.
      * split; [lia|]. exists col'. split; [|done].
        replace (Z.to_nat (z - k)) with (S (Z.to_nat (z - (k + 1)))) by lia.
        done.
    + intros (Hk & col' & Hl & Hp).
      destruct (decide (z = k)) as [->|Hne].
      * left. replace (k - k) with 0 in Hl by lia. simpl in Hl.
        injection Hl as ->. rewrite Hp. by apply list_elem_of_singleton.
      * right. split; [lia|]. exists col'. split; [|done].
        replace (Z.to_nat (z - k)) with (S (Z.to_nat (z - (k + 1)))) in Hl by lia.
        done.
Qed.

Lemma primary_from_sorted (cols : list Column) (k : Z) :
  StronglySorted Z.lt (primary_from k cols).
Proof.
  revert k. induction cols as [|col cols IH]; intros k; simpl.
  - constructor.
  - destruct (IsPrimary col); simpl; [|apply IH].
    constructor; [apply IH|].
    apply Forall_forall. intros z (Hz & _)%primary_from_elem. lia.
Qed.

Lemma primary_from_columns (pre cols : list Column) :
  omap (λ i, (pre ++ cols) !! Z.to_nat i)
       (primary_from (Z.of_nat (length pre)) cols)
  = filter (λ col, IsPrimary col = true) cols.
Proof.
  revert pre. induction cols as [|col cols IH]; intros pre; simpl; [done|].
  specialize (IH (pre ++ [col])).
  rewrite <- app_assoc, length_app in IH. simpl in IH.
  replace (Z.of_nat (length pre + 1)) with (Z.of_nat (length pre) + 1) in IH by lia.
  rewrite filter_cons.
  destruct (IsPrimary col) eqn:Hp; simpl.
  - rewrite Nat2Z.id, lookup_app_r by lia.
    replace (length pre - length pre)%nat with 0%nat by lia. simpl.
    f_equal. exact IH.
  - exact IH.
Qed.

(** ** C3: CreatePrimaryIndex *)

(** C3. When the database and the table resolve, CreatePrimaryIndex
    succeeds and appends to the table's indexes one index whose key
    attributes are exactly the ordinals of the primary columns, in strictly
    increasing order, whose key schema is made of exactly those columns in
    column order, whose name is the upper-cased table name followed by
    _PKEY, and which is unique, BWTREE and PRIMARY_KEY. *)
Theorem CreatePrimaryIndex_builds_primary_key_index
    c (database_name name : string) database_ptr database table_ptr table :
  GetDatabaseWithName database_name c = Some (Some (database_ptr, database), c) →
  Database_GetTableWithName name database = Some (table_ptr, table) →
  ∃ pkey_index c',
    CreatePrimaryIndex database_name name c = Some (SUCCESS, c')
    ∧ (∃ database' table',
         databases_ c' !! database_ptr = Some database'
         ∧ tables database' !! table_ptr = Some table'
         ∧ table_oid table' = table_oid table
         ∧ indexes table' = indexes table ++ [pkey_index])
    ∧ StronglySorted Z.lt (key_attrs (metadata pkey_index))
    ∧ (∀ z, z ∈ key_attrs (metadata pkey_index) ↔
            0 ≤ z ∧ ∃ col, GetColumns (table_schema table) !! Z.to_nat z = Some col
                           ∧ IsPrimary col = true)
    ∧ columns (key_schema (metadata pkey_index))
      = filter (λ col, IsPrimary col = true) (GetColumns (table_schema table))
    ∧ indexed_columns (key_schema (metadata pkey_index))
      = key_attrs (metadata pkey_index)
    ∧ index_name (metadata pkey_index) = (Upper (table_name table) +:+ "_PKEY")%string
    ∧ unique_keys (metadata pkey_index) = true
    ∧ index_type (metadata pkey_index) = BWTREE
    ∧ index_constraint_type (metadata pkey_index) = PRIMARY_KEY
    ∧ index_table_oid (metadata pkey_index) = table_oid table.
Proof.
  intros Hdb Htb.
  assert (databases_ c !! database_ptr = Some database) as Hdl.
  { unfold GetDatabaseWithName, DatabaseCatalog_GetDatabaseOid, GetDatabaseWithOid,
      gets, mbind, M_bind in Hdb.
    injection Hdb as Hdb. by apply list_find_Some in Hdb as (? & _). }
  assert (tables database !! table_ptr = Some table) as Htl.
  { unfold Database_GetTableWithName in Htb.
    by apply list_find_Some in Htb as (? & _). }
  unfold CreatePrimaryIndex, mbind at 1, M_bind at 1. rewrite Hdb, Htb.
  eexists _, _. split; [reflexivity|]. cbn -[lookup alter]. split_and!.
  - eexists _, _. split.
    { rewrite list_lookup_alter_eq, Hdl. reflexivity. }
    cbn -[lookup alter]. split.
    { rewrite list_lookup_alter_eq, Htl. reflexivity. }
    done.
  - cbn. rewrite find_primary_attrs_eq. apply primary_from_sorted.
  - intros z. cbn. rewrite find_primary_attrs_eq, primary_from_elem.
    by replace (z - 0) with z by lia.
  - cbn. rewrite find_primary_attrs_eq.
    apply (primary_from_columns [] (GetColumns (table_schema table))).
  - done.
  - cbn -[Upper]. by rewrite Upper_app, Upper_PKEY.
  - done.
  - done.
  - done.
  - done.
Qed.

Example find_primary_attrs_example :
  find_primary_attrs
    [integer_column "a" 0 [PRIMARY]; integer_column "b" 1 [];
     integer_column "c" 2 [PRIMARY]] = [0; 2].
Proof. reflexivity. Qed.

(** CreatePrimaryIndex never writes pg_index, whatever the state. *)
Lemma CreatePrimaryIndex_leaves_pg_index
    c c' (database_name name : string) (r : ResultType) :
  CreatePrimaryIndex database_name name c = Some (r, c') →
  pg_index c' = pg_index c.
Proof.
  unfold CreatePrimaryIndex, mbind at 1, M_bind at 1.
  destruct (GetDatabaseWithName database_name c) as [[database c1]|] eqn:Hdb;
    [|done].
  assert (c1 = c) as -> by (by injection Hdb as _ <-).
  destruct database as [[i d]|]; [|by intros [= <- <-]].
  destruct (Database_GetTableWithName name d) as [[j t]|]; [|by intros [= <- <-]].
  by intros [= <- <-].
Qed.

(** ** C4: attribute resolution of CreateIndex *)

Lemma push_matching_length (attr : string) (cols : list Column) (i : nat)
    (acc : list Z) :
  length (push_matching attr i cols acc)
  = (length acc + length (named attr cols))%nat.
Proof.
  revert i acc. induction cols as [|col cols IH]; intros i acc; simpl.
  - unfold named. simpl. lia.
  - rewrite IH. unfold named. rewrite filter_cons.
    destruct (decide (attr = column_name col)); simpl;
      [rewrite length_app; simpl|]; lia.
Qed.

Lemma named_absent (attr : string) (cols : list Column) :
  attr ∉ (column_name <$> cols) → named attr cols = [].
Proof.
  intros Hn. unfold named. induction cols as [|col cols IH]; [done|].
  rewrite fmap_cons, not_elem_of_cons in Hn. destruct Hn as [Hne Hn].
  rewrite filter_cons, decide_False by done. by apply IH.
Qed.

Lemma named_NoDup (attr : string) (cols : list Column) :
  NoDup (column_name <$> cols) → (length (named attr cols) ≤ 1)%nat.
Proof.
  induction cols as [|col cols IH]; [simpl; lia|].
  rewrite fmap_cons, NoDup_cons. intros [Hn Hd]. unfold named.
  rewrite filter_cons. destruct (decide (attr = column_name col)) as [->|].
  - fold (named (column_name col) cols). rewrite named_absent by done. simpl. lia.
  - by apply IH.
Qed.

Lemma resolve_key_attrs_length (cols : list Column) (attrs : list string)
    (acc : list Z) :
  NoDup (column_name <$> cols) →
  (length (fold_left (λ key_attrs attr, push_matching attr 0 cols key_attrs)
                     attrs acc)
   ≤ length acc + length attrs)%nat.
Proof.
  intros Hd. revert acc. induction attrs as [|attr attrs IH]; intros acc; simpl.
  - lia.
  - etransitivity; [apply IH|]. rewrite push_matching_length.
    pose proof (named_NoDup attr cols Hd). lia.
Qed.

Lemma resolve_key_attrs_short (cols : list Column) (attrs : list string)
    (acc : list Z) (attr : string) :
  NoDup (column_name <$> cols) →
  attr ∈ attrs → attr ∉ (column_name <$> cols) →
  (length (fold_left (λ key_attrs attr, push_matching attr 0 cols key_attrs)
                     attrs acc)
   < length acc + length attrs)%nat.
Proof.
  intros Hd Hin Hn. revert acc.
  induction attrs as [|attr' attrs IH]; intros acc; simpl.
  - by apply elem_of_nil in Hin.
  - apply elem_of_cons in Hin as [<-|Hin].
    + eapply Nat.le_lt_trans; [by apply resolve_key_attrs_length|].
      rewrite push_matching_length, named_absent by done. simpl. lia.
    + eapply Nat.lt_le_trans; [by apply IH|].
      rewrite push_matching_length.
      pose proof (named_NoDup attr' cols Hd). lia.
Qed.

(** C4 (amended). On a table whose column names are pairwise distinct, a
    CreateIndex call that requests a name which is not a column of the
    table returns FAILURE and leaves the whole catalog, the table's indexes
    included, as it was, whatever the other requested names are. *)
Theorem CreateIndex_missing_column_fails
    c (database_name name : string) (index_attr : list string) (iname : string)
    (unique : bool) (ty : IndexType) (db_oid tb_oid : Z)
    database_ptr database table_ptr table (attr : string) :
  DatabaseCatalog_GetDatabaseOid database_name c = Some (db_oid, c) →
  TableCatalog_GetTableOid name c = Some (tb_oid, c) →
  GetDatabaseWithOid db_oid c = Some (Some (database_ptr, database), c) →
  Database_GetTableWithOid tb_oid database = Some (table_ptr, table) →
  NoDup (column_name <$> GetColumns (table_schema table)) →
  attr ∈ index_attr →
  attr ∉ (column_name <$> GetColumns (table_schema table)) →
  CreateIndex database_name name index_attr iname unique ty c = Some (FAILURE, c).
Proof.
  intros Hdo Hto Hdb Htb Hd Hin Hn.
  unfold CreateIndex, mbind at 1, M_bind at 1. rewrite Hdo.
  destruct (decide (db_oid = INVALID_OID)); [done|].
  unfold mbind at 1, M_bind at 1. rewrite Hto.
  destruct (decide (tb_oid = INVALID_OID)); [done|].
  unfold mbind at 1, M_bind at 1. rewrite Hdb, Htb.
  rewrite decide_True; [done|].
  pose proof (resolve_key_attrs_short _ index_attr [] attr Hd Hin Hn) as Hlt.
  unfold resolve_key_attrs. simpl in Hlt. lia.
Qed.

(** ** C5: the index CreateIndex attaches *)

(** Every successful CreateIndex appends to one live table an index with the
    requested name and type whose constraint kind follows the [unique]
    argument and whose uniqueness flag is true, and appends a pg_index tuple
    that records the argument. *)
Lemma CreateIndex_attached_index
    c c' (database_name name : string) (index_attr : list string) (iname : string)
    (unique : bool) (ty : IndexType) :
  CreateIndex database_name name index_attr iname unique ty c = Some (SUCCESS, c') →
  ∃ database_ptr database' table_ptr table' index tuple,
    databases_ c' !! database_ptr = Some database'
    ∧ tables database' !! table_ptr = Some table'
    ∧ last (indexes table') = Some index
    ∧ last (pg_index c') = Some tuple
    ∧ index_name (metadata index) = iname
    ∧ index_type (metadata index) = ty
    ∧ index_constraint_type (metadata index) = (if unique then UNIQUE else DEFAULT)
    ∧ unique_keys (metadata index) = true
    ∧ pg_index_oid tuple = index_oid (metadata index)
    ∧ pg_index_unique_keys tuple = unique.
Proof.
  unfold CreateIndex, mbind at 1, M_bind at 1, DatabaseCatalog_GetDatabaseOid, gets.
  destruct (decide _); [done|].
  unfold mbind at 1, M_bind at 1, TableCatalog_GetTableOid, gets.
  destruct (decide _); [done|].
  unfold mbind at 1, M_bind at 1, GetDatabaseWithOid, gets.
  destruct (list_find _ (databases_ c)) as [[i d]|] eqn:Hd; [|done].
  destruct (Database_GetTableWithOid _ d) as [[j t]|] eqn:Ht; [|done].
  destruct (decide _); [done|].
  apply list_find_Some in Hd as (Hd & _).
  apply list_find_Some in Ht as (Ht & _).
  intros [= <-]. cbn -[lookup alter last].
  eexists i, _, j, _, _, _. split.
  { rewrite list_lookup_alter_eq, Hd. reflexivity. }
  cbn -[lookup alter last]. split.
  { rewrite list_lookup_alter_eq, Ht. reflexivity. }
  cbn -[last]. rewrite !last_snoc.
  split; [reflexivity|]. split; [reflexivity|].
  by destruct unique.
Qed.

(** ** C7: the column loop of CreateTable *)

Lemma insert_columns_spec (tb_oid : Z) (cols : list Column) (b : bool) c :
  insert_columns tb_oid cols b c
  = Some (b || existsb IsPrimary cols,
          set_pg_attribute (λ l, l ++ (column_tuple tb_oid <$> cols)) c).
Proof.
  revert b c. induction cols as [|col cols IH]; intros b c; simpl.
  - rewrite orb_false_r. destruct c. unfold set_pg_attribute. simpl.
    by rewrite app_nil_r.
  - unfold mbind, M_bind, ColumnCatalog_InsertColumn, modify. rewrite IH.
    destruct c. unfold set_pg_attribute. simpl. rewrite <- app_assoc. simpl.
    by destruct (IsPrimary col), b.
Qed.

(** On a schema without a primary column, in a database that resolves and
    has no table of that name, CreateTable registers the table and inserts
    the pg_table tuple and one pg_attribute tuple per column, and returns
    no result. *)
Lemma CreateTable_without_primary_key
    c (database_name name : string) (schema : Schema) database_ptr database :
  GetDatabaseWithName database_name c = Some (Some (database_ptr, database), c) →
  Database_GetTableWithName name database = None →
  existsb IsPrimary (GetColumns schema) = false →
  ∃ c',
    CreateTable database_name name schema c = Some (None, c')
    ∧ pg_table c'
      = pg_table c
        ++ [{| pg_table_oid := oid_ c; pg_table_name := name;
               pg_table_database_oid := database_oid database;
               pg_table_database_name := database_name |}]
    ∧ pg_attribute c'
      = pg_attribute c ++ (column_tuple (oid_ c) <$> GetColumns schema)
    ∧ pg_index c' = pg_index c.
Proof.
  intros Hdb Htb Hpk.
  unfold CreateTable, mbind at 1, M_bind at 1. rewrite Hdb, Htb.
  unfold mbind at 1, M_bind at 1, GetNextOid.
  unfold mbind at 1, M_bind at 1, Database_at, modify.
  unfold mbind at 1, M_bind at 1, TableCatalog_InsertTable, modify.
  unfold mbind at 1, M_bind at 1. rewrite insert_columns_spec.
  cbn [table_schema TableFactory_GetDataTable]. rewrite Hpk. simpl.
  eexists. split; [reflexivity|]. done.
Qed.

(** ** C6: DropIndex *)

(** Whatever the state, a DropIndex call that returns at all returns FAILURE
    and leaves the catalog as it was. *)
Lemma DropIndex_never_succeeds c c' (db_oid idx_oid : Z) (r : ResultType) :
  DropIndex db_oid idx_oid c = Some (r, c') → r = FAILURE ∧ c' = c.
Proof.
  unfold DropIndex, mbind at 1, M_bind at 1, GetDatabaseWithOid, gets.
  destruct (list_find _ (databases_ c)) as [[i d]|]; simpl.
  - intros [= <- <-]. done.
  - unfold mbind at 1, M_bind at 1, IndexCatalog_GetTableidByOid, gets.
    destruct (decide _); [intros [= <- <-]; done|].
    unfold mbind, M_bind, deref. done.
Qed.

(** ** C8: DropDatabaseWithName *)

Lemma list_find_filter_name (name : string) (db_oid : Z) (l : list DatabaseTuple) :
  ∀ i t,
    list_find (λ t, pg_database_name t = name)
              (filter (λ t, pg_database_oid t ≠ db_oid) l) = Some (i, t) →
    pg_database_oid t ≠ db_oid.
Proof.
  intros i t (Hl & _ & _)%list_find_Some.
  apply list_elem_of_lookup_2, list_elem_of_filter in Hl. tauto.
Qed.

(** C8. For a name that pg_database resolves, DropDatabaseWithName returns
    SUCCESS, removes from pg_database the tuples carrying the resolved oid
    and changes nothing else: the live databases with their tables, the
    other three catalog tables and the oid counter are as before.
    Afterwards a lookup by that name does not return a database with the
    resolved oid (it returns null when names in pg_database are unique and
    no live database carries the sentinel oid), while the lookup by oid
    returns what it returned before. *)
Theorem DropDatabaseWithName_deletes_only_the_tuple
    c (name : string) (db_oid : Z) :
  DatabaseCatalog_GetDatabaseOid name c = Some (db_oid, c) →
  db_oid ≠ INVALID_OID →
  ∃ c',
    DropDatabaseWithName name c = Some (SUCCESS, c')
    ∧ pg_database c' = filter (λ t, pg_database_oid t ≠ db_oid) (pg_database c)
    ∧ databases_ c' = databases_ c
    ∧ pg_table c' = pg_table c
    ∧ pg_attribute c' = pg_attribute c
    ∧ pg_index c' = pg_index c
    ∧ oid_ c' = oid_ c
    ∧ (∀ found, GetDatabaseWithName name c' = Some (Some found, c') →
                database_oid found.2 ≠ db_oid)
    ∧ (NoDup (pg_database_name <$> pg_database c) →
       Forall (λ database, database_oid database ≠ INVALID_OID) (databases_ c) →
       GetDatabaseWithName name c' = Some (None, c'))
    ∧ fst <$> GetDatabaseWithOid db_oid c' = fst <$> GetDatabaseWithOid db_oid c.
Proof.
  intros Hoid Hvalid.
  unfold DatabaseCatalog_GetDatabaseOid, gets in Hoid.
  destruct (list_find _ (pg_database c)) as [[i t]|] eqn:Hfind;
    injection Hoid as Hoid; [|congruence].
  apply list_find_Some in Hfind as (Hl & Hname & Hfirst).
  exists (set_pg_database (filter (λ t, pg_database_oid t ≠ db_oid)) c).
  split_and!; try reflexivity.
  - unfold DropDatabaseWithName, mbind at 1, M_bind at 1.
    unfold DatabaseCatalog_GetDatabaseOid, gets.
    rewrite (proj2 (list_find_Some _ (pg_database c) i t)) by done.
    rewrite Hoid. rewrite decide_False by done.
    unfold mbind, M_bind, DatabaseCatalog_DeleteDatabase.
    rewrite bool_decide_eq_true_2; [done|].
    apply Exists_exists. exists t. split; [|done].
    by eapply list_elem_of_lookup_2.
  - intros [j found] Hfound. simpl.
    unfold GetDatabaseWithName, DatabaseCatalog_GetDatabaseOid, GetDatabaseWithOid,
      gets, mbind, M_bind in Hfound. simpl in Hfound.
    injection Hfound as Hfound.
    apply list_find_Some in Hfound as (_ & -> & _).
    destruct (list_find _ (filter _ _)) as [[k t']|] eqn:Hf; [|done].
    by eapply list_find_filter_name.
  - intros Hnd Hlive.
    unfold GetDatabaseWithName, DatabaseCatalog_GetDatabaseOid, GetDatabaseWithOid,
      gets, mbind, M_bind. simpl.
    assert (list_find (λ t, pg_database_name t = name)
              (filter (λ t, pg_database_oid t ≠ db_oid) (pg_database c)) = None)
      as ->.
    { apply list_find_None, Forall_forall.
      intros t' [Hne Hin]%list_elem_of_filter Hn'.
      apply list_elem_of_lookup in Hin as [j Hj].
      assert (i = j) as <-.
      { eapply NoDup_lookup; [exact Hnd| |].
        - rewrite list_lookup_fmap, Hl. reflexivity.
        - rewrite list_lookup_fmap, Hj. simpl. congruence. }
      congruence. }
    assert (list_find (λ database, database_oid database = INVALID_OID)
              (databases_ c) = None) as ->; [|done].
    by apply list_find_None.
Qed.

(** ** C10: AddDatabase *)

(** C10 (amended). AddDatabase appends the live database and appends to
    pg_database a tuple whose name is the empty string and whose oid is the
    database's oid or-ed with the DATABASE tag, and changes nothing else.
    For a nonempty name that pg_database did not resolve before the call,
    and when no live database (the added one included) carries the sentinel
    oid, the lookup by that name returns null afterwards.  The tuple's oid
    differs from the database's oid as soon as one bit of the tag is not
    set in it. *)
Theorem AddDatabase_registers_under_empty_name c database :
  ∃ c',
    AddDatabase database c = Some (tt, c')
    ∧ databases_ c' = databases_ c ++ [database]
    ∧ pg_database c'
      = pg_database c
        ++ [{| pg_database_oid := Z.lor (database_oid database) CatalogType_DATABASE;
               pg_database_name := "" |}]
    ∧ pg_table c' = pg_table c
    ∧ pg_attribute c' = pg_attribute c
    ∧ pg_index c' = pg_index c
    ∧ oid_ c' = oid_ c
    ∧ (∀ name : string,
         name ≠ ""%string →
         DatabaseCatalog_GetDatabaseOid name c = Some (INVALID_OID, c) →
         Forall (λ database, database_oid database ≠ INVALID_OID)
                (databases_ c ++ [database]) →
         GetDatabaseWithName name c' = Some (None, c'))
    ∧ (∀ k, Z.testbit CatalogType_DATABASE k = true →
            Z.testbit (database_oid database) k = false →
            Z.lor (database_oid database) CatalogType_DATABASE
            ≠ database_oid database).
Proof.
  exists (set_pg_database
            (λ l, l ++ [{| pg_database_oid :=
                             Z.lor (database_oid database) CatalogType_DATABASE;
                           pg_database_name := "" |}])
            (set_databases (λ l, l ++ [database]) c)).
  split_and!; try reflexivity.
  - intros name Hne Hoid Hlive.
    unfold DatabaseCatalog_GetDatabaseOid, gets in Hoid. injection Hoid as Hoid.
    unfold GetDatabaseWithName, DatabaseCatalog_GetDatabaseOid, GetDatabaseWithOid,
      gets, mbind, M_bind. cbn -[list_find].
    set (new := {| pg_database_oid := _; pg_database_name := "" |}).
    assert (match list_find (λ t, pg_database_name t = name)
                            (pg_database c ++ [new]) with
            | Some (_, t) => pg_database_oid t
            | None => INVALID_OID
            end = INVALID_OID) as ->.
    { destruct (list_find _ (pg_database c)) as [[i t]|] eqn:Hf.
      - rewrite (proj2 (list_find_app_Some _ _ _ i t)); [done|]. by left.
      - rewrite (proj2 (list_find_app_None _ _ _)); [done|]. split; [done|].
        apply list_find_None. repeat constructor. simpl. congruence. }
    rewrite (proj2 (list_find_None _ _)); done.
  - intros k Htag Hbit Heq.
    pose proof (Z.lor_spec (database_oid database) CatalogType_DATABASE k) as Hs.
    rewrite Heq, Htag, Hbit in Hs. done.
Qed.

End CatalogProperties.

(** * Runs of the catalog code on concrete states *)

Section CatalogRuns.

Import peloton.
#[local] Existing Instance constants32.

(** ** C1: the two sides of the bookkeeping *)

(** C1. From the empty catalog, CreateDatabase "db" followed by CreateTable
    of a table with a primary column both report SUCCESS, and the resulting
    state has a live index (oid 3, attached to the live table) with no
    pg_index tuple: the live index oids are [3], the pg_index oids are
    empty, and the bookkeeping invariant, which held at the start, does not
    hold. *)
Theorem primary_index_has_no_catalog_tuple :
  dual_bookkeeping empty_catalog
  ∧ ∃ c,
      run_all_success create_t_x empty_catalog = Some c
      ∧ live_index_oids c = [3]
      ∧ catalog_index_oids c = []
      ∧ (∃ index, GetIndexWithOid 1 2 3 c = Some (Some index, c))
      ∧ IndexCatalog_GetTableidByOid 3 c = Some (INVALID_OID, c)
      ∧ ¬ dual_bookkeeping c.
Proof.
  split; [by repeat split|].
  eexists. split; [vm_compute; reflexivity|].
  split_and!; try (vm_compute; reflexivity).
  - eexists. vm_compute. reflexivity.
  - intros (_ & _ & _ & Hidx). specialize (Hidx 3).
    change (3 ∈ [3] ↔ 3 ∈ []) in Hidx.
    apply (elem_of_nil 3), Hidx, list_elem_of_singleton. reflexivity.
Qed.

(** ** C5: the uniqueness flag of CreateIndex *)

(** C5. CreateIndex on column "x" of table "t" with the unique argument
    false reports SUCCESS and attaches an index (oid 4) whose constraint
    kind is DEFAULT and whose uniqueness flag is true, while the pg_index
    tuple it inserts records false. *)
Theorem CreateIndex_non_unique_builds_unique_index :
  ∃ c c' index,
    run_all_success create_t_x empty_catalog = Some c
    ∧ CreateIndex "db" "t" ["x"%string] "idx" false BWTREE c = Some (SUCCESS, c')
    ∧ GetIndexWithOid 1 2 4 c' = Some (Some index, c')
    ∧ index_constraint_type (metadata index) = DEFAULT
    ∧ unique_keys (metadata index) = true
    ∧ pg_index_unique_keys <$> pg_index c' = [false].
Proof.
  eexists _, _, _. split; [vm_compute; reflexivity|].
  split; [vm_compute; reflexivity|].
  split; [vm_compute; reflexivity|].
  by vm_compute.
Qed.

(** ** C6: DropIndex *)

(** C6. With database 1, table 2 and index 4 all resolvable (the index
    through its pg_index tuple, which names table 2), DropIndex 1 4
    reports FAILURE and changes nothing: the index stays attached and its
    pg_index tuple stays in place. *)
Theorem DropIndex_fails_when_everything_resolves :
  ∃ c index,
    run_all_success
      (create_t_x ++ [OpCreateIndex "db" "t" ["x"%string] "idx" false BWTREE])
      empty_catalog = Some c
    ∧ HasDatabase 1 c = Some (true, c)
    ∧ IndexCatalog_GetTableidByOid 4 c = Some (2, c)
    ∧ GetIndexWithOid 1 2 4 c = Some (Some index, c)
    ∧ DropIndex 1 4 c = Some (FAILURE, c).
Proof.
  eexists _, _. split; [vm_compute; reflexivity|].
  split_and!; vm_compute; reflexivity.
Qed.

(** ** C7: CreateTable *)

(** C7. CreateTable of a table without a primary column, in an existing
    database that has no table of that name, registers the table and
    inserts its pg_table tuple and one pg_attribute tuple per column, and
    then returns [result], which this path never assigned: no SUCCESS is
    returned.  With a primary column the result of CreatePrimaryIndex is
    returned. *)
Theorem CreateTable_without_primary_key_returns_no_result :
  ∃ c c' c'',
    run_all_success create_db empty_catalog = Some c
    ∧ CreateTable "db" "t"
        (new_Schema [integer_column "b" 0 []; integer_column "d" 1 []]) c
      = Some (None, c')
    ∧ pg_table_name <$> pg_table c' = ["t"%string]
    ∧ pg_attribute_name <$> pg_attribute c' = ["b"%string; "d"%string]
    ∧ live_table_oids c' = [2]
    ∧ CreateTable "db" "t" (new_Schema [integer_column "x" 0 [PRIMARY]]) c
      = Some (Some SUCCESS, c'').
Proof.
  eexists _, _, _. split; [vm_compute; reflexivity|].
  split; [vm_compute; reflexivity|].
  split_and!; vm_compute; reflexivity.
Qed.

(** ** C3: an instance *)

(** The hypotheses of C3 at the table [a:PRIMARY, b, c:PRIMARY], and the
    index the call attaches to it. *)
Lemma CreatePrimaryIndex_on_abc_table :
  GetDatabaseWithName "db" abc_catalog = Some (Some (0%nat, abc_database), abc_catalog)
  ∧ Database_GetTableWithName "t" abc_database = Some (0%nat, abc_table)
  ∧ ∃ pkey_index c',
      CreatePrimaryIndex "db" "t" abc_catalog = Some (SUCCESS, c')
      ∧ columns (key_schema (metadata pkey_index))
        = [integer_column "a" 0 [PRIMARY]; integer_column "c" 2 [PRIMARY]]
      ∧ index_name (metadata pkey_index) = "T_PKEY"%string
      ∧ unique_keys (metadata pkey_index) = true
      ∧ index_type (metadata pkey_index) = BWTREE
      ∧ index_constraint_type (metadata pkey_index) = PRIMARY_KEY.
Proof.
  split; [reflexivity|]. split; [reflexivity|].
  destruct (CreatePrimaryIndex_builds_primary_key_index
              abc_catalog "db" "t" 0%nat abc_database 0%nat abc_table
              eq_refl eq_refl)
    as (pkey_index & c' & Hrun & _ & _ & _ & Hcols & _ & Hname & Hu & Hty & Hk & _).
  exists pkey_index, c'. split_and!; assumption.
Defined.

(** ** C4: a table with a repeated column name, and an instance *)

(** C4, as stated, fails on a table whose two columns are both named "x":
    the request ["x"; "nonexistent"] resolves to two ordinals, the count
    test passes, CreateIndex reports SUCCESS and the index (oid 4) is
    attached, although "nonexistent" is not a column of the table. *)
Lemma CreateIndex_repeated_column_name_succeeds :
  ∃ c c' table index,
    run_all_success create_t_xx empty_catalog = Some c
    ∧ GetTableWithOid 1 2 c = Some (Some (0%nat, table), c)
    ∧ column_name <$> GetColumns (table_schema table) = ["x"%string; "x"%string]
    ∧ CreateIndex "db" "t" ["x"%string; "nonexistent"%string] "idx" false BWTREE c
      = Some (SUCCESS, c')
    ∧ GetIndexWithOid 1 2 4 c' = Some (Some index, c')
    ∧ key_attrs (metadata index) = [0; 1].
Proof.
  eexists _, _, _, _. split; [vm_compute; reflexivity|].
  split; [vm_compute; reflexivity|].
  split_and!; vm_compute; reflexivity.
Qed.

(** The hypotheses of the amended C4 on the table "t" of [abc_catalog]
    and the request ["a"; "nonexistent"]. *)
Lemma CreateIndex_missing_column_on_abc_table :
  NoDup (column_name <$> GetColumns (table_schema abc_table))
  ∧ (("nonexistent" : string) ∉ column_name <$> GetColumns (table_schema abc_table))
  ∧ CreateIndex "db" "t" ["a"%string; "nonexistent"%string] "idx" false BWTREE
      abc_catalog
    = Some (FAILURE, abc_catalog).
Proof.
  assert (NoDup (column_name <$> GetColumns (table_schema abc_table))) as Hd.
  { apply (bool_decide_unpack _). vm_compute. exact I. }
  assert (("nonexistent" : string) ∉ (column_name <$> GetColumns (table_schema abc_table)))
    as Hn.
  { apply (bool_decide_unpack _). vm_compute. exact I. }
  split; [exact Hd|]. split; [exact Hn|].
  apply (CreateIndex_missing_column_fails
           abc_catalog "db" "t" ["a"%string; "nonexistent"%string] "idx" false
           BWTREE 1 2 0%nat abc_database 0%nat abc_table "nonexistent"
           eq_refl eq_refl eq_refl eq_refl Hd).
  - apply (bool_decide_unpack _). vm_compute. exact I.
  - exact Hn.
Defined.

(** ** C8: an instance *)

(** The hypotheses of C8 at the name "db" of [abc_catalog], whose tuple
    carries oid 1. *)
Lemma DropDatabaseWithName_on_abc_catalog :
  DatabaseCatalog_GetDatabaseOid "db" abc_catalog = Some (1, abc_catalog)
  ∧ 1 ≠ INVALID_OID
  ∧ ∃ c',
      DropDatabaseWithName "db" abc_catalog = Some (SUCCESS, c')
      ∧ databases_ c' = [abc_database]
      ∧ GetDatabaseWithName "db" c' = Some (None, c')
      ∧ fst <$> GetDatabaseWithOid 1 c' = Some (Some (0%nat, abc_database)).
Proof.
  assert (1 ≠ INVALID_OID) as Hv by (vm_compute; discriminate).
  split; [reflexivity|]. split; [exact Hv|].
  destruct (DropDatabaseWithName_deletes_only_the_tuple abc_catalog "db" 1
              eq_refl Hv)
    as (c' & Hrun & _ & Hlive & _ & _ & _ & _ & _ & Hnull & Hoid).
  exists c'. split_and!.
  - exact Hrun.
  - exact Hlive.
  - apply Hnull.
    + apply (bool_decide_unpack _). vm_compute. exact I.
    + repeat constructor. vm_compute. discriminate.
  - rewrite Hoid. reflexivity.
Defined.

(** ** C10: two lookups that do find a database, and an instance *)

(** C10, as stated, fails in two ways.  When pg_database already resolves
    the name, the lookup after AddDatabase returns the database of that
    older tuple; and when the added database carries the sentinel oid, the
    failed name lookup yields the sentinel, which the scan of the live
    list then finds. *)
Lemma AddDatabase_name_lookup_finds_a_database :
  (∃ c found,
     run_all_success create_db empty_catalog = Some c
     ∧ fst <$> (AddDatabase (setDBName "db" (new_Database 7));;
                GetDatabaseWithName "db") c
       = Some (Some found))
  ∧ (∃ found,
       fst <$> (AddDatabase (setDBName "x" (new_Database INVALID_OID));;
                GetDatabaseWithName "x") empty_catalog
       = Some (Some found)).
Proof.
  split.
  - eexists _, _. split; vm_compute; reflexivity.
  - eexists. vm_compute. reflexivity.
Qed.

(** An instance of the amended C10: database 7, named "sales", added to
    [abc_catalog]. *)
Lemma AddDatabase_on_abc_catalog :
  ∃ c',
    AddDatabase (setDBName "sales" (new_Database 7)) abc_catalog = Some (tt, c')
    ∧ pg_database_name <$> pg_database c' = ["db"%string; ""%string]
    ∧ GetDatabaseWithName "sales" c' = Some (None, c')
    ∧ Z.lor 7 (CatalogType_DATABASE) ≠ 7.
Proof.
  destruct (AddDatabase_registers_under_empty_name abc_catalog
              (setDBName "sales" (new_Database 7)))
    as (c' & Hrun & _ & Htuples & _ & _ & _ & _ & Hnull & Htag).
  exists c'. split_and!.
  - exact Hrun.
  - rewrite Htuples. reflexivity.
  - apply Hnull.
    + discriminate.
    + reflexivity.
    + repeat constructor; vm_compute; discriminate.
  - apply (Htag 24); reflexivity.
Defined.

End CatalogRuns.

(** * Properties of the materialization executor *)

Section ExecutorProperties.

Import nstore.
Context {E : Type} `{!AbstractExecutor E}.

Implicit Types (executor : MaterializationExecutor E).

Lemma GetNextTile_exhausted executor :
  state executor = EXHAUSTED → GetNextTile executor = (None, executor).
Proof. intros Hs. unfold GetNextTile. by rewrite Hs. Qed.

Lemma GetNextTiles_exhausted (n : nat) executor :
  state executor = EXHAUSTED →
  GetNextTiles n executor = (replicate n None, executor).
Proof.
  intros Hs. induction n as [|n IH]; simpl; [done|].
  by rewrite GetNextTile_exhausted, IH.
Qed.

(** C9. A call of GetNextTile leaves the child as it was or as one pull
    leaves it, and the executor keeps no tile.  When the executor is READY
    or PRODUCING and the pull reports end-of-stream, the call returns no
    tile and the executor is EXHAUSTED; any number of further calls return
    no tile each and pull nothing more from the child. *)
Theorem GetNextTile_end_of_stream executor :
  (child (GetNextTile executor).2 = child executor
   ∨ child (GetNextTile executor).2 = (SubGetNextTile (child executor)).2)
  ∧ ∀ (child' : E) (n : nat),
      state executor = READY ∨ state executor = PRODUCING →
      SubGetNextTile (child executor) = (None, child') →
      ∃ exhausted,
        GetNextTile executor = (None, exhausted)
        ∧ state exhausted = EXHAUSTED
        ∧ child exhausted = child'
        ∧ GetNextTiles n exhausted = (replicate n None, exhausted).
Proof.
  split.
  - unfold GetNextTile.
    destruct (state executor); simpl; auto;
      destruct (SubGetNextTile (child executor)) as [[tile|] child']; simpl; auto.
  - intros child' n Hs Hpull.
    exists {| node := node executor; state := EXHAUSTED; child := child' |}.
    split_and!; [|done|done|by apply GetNextTiles_exhausted].
    unfold GetNextTile. destruct Hs as [-> | ->]; by rewrite Hpull.
Qed.

(** ** C2: the reorder-and-drop scenario *)

Ltac explode_lists :=
  repeat match goal with
  | H : length ?l = _ |- _ =>
      is_var l; destruct l; simpl in H;
      [try discriminate H | try discriminate H; try (injection H as H)]
  | H : Forall _ (_ :: _) |- _ => apply Forall_cons in H as [? H]
  | H : Forall _ [] |- _ => clear H
  end.

(** C2. Let the child hand over the logical tile wrapping two base tiles
    of two columns and nine rows each, and let the plan be the one of the
    reorder test, {3→0, 1→1, 0→2} with its three-column output schema.
    Then GetNextTile returns a logical tile with exactly three columns, all
    three backed by the one tile the call produced (a tile that is neither
    of the two sources), and for every row [i] below 9 the produced tile
    holds at column 0 the value source column 3 has at row [i], at column
    1 that of source column 1 and at column 2 that of source column 0; the
    returned logical tile reads the same values. *)
Theorem GetNextTile_two_base_tiles_with_reorder
    executor (t0 t1 : Tile) (child' : E) :
  Tile_GetColumnCount t0 = 2%nat → Tile_GetColumnCount t1 = 2%nat →
  Tile_GetTupleCount t0 = 9%nat → Tile_GetTupleCount t1 = 9%nat →
  Forall (λ tuple, length tuple = 2%nat) (tuples t0) →
  Forall (λ tuple, length tuple = 2%nat) (tuples t1) →
  state executor = READY ∨ state executor = PRODUCING →
  node executor = reorder_node [t0; t1] →
  SubGetNextTile (child executor) = (Some (WrapBaseTiles [t0; t1]), child') →
  ∃ result dest executor',
    GetNextTile executor = (Some result, executor')
    ∧ NumCols result = 3%nat
    ∧ base_tiles result = [dest]
    ∧ (∀ col, (col < 3)%nat → GetBaseTile result col = Some dest)
    ∧ dest ≠ t0 ∧ dest ≠ t1
    ∧ Tile_GetTupleCount dest = 9%nat
    ∧ ∀ i, (i < 9)%nat →
        ∃ v3 v1 v0,
          GetValue (WrapBaseTiles [t0; t1]) 3 i = Some v3
          ∧ GetValue (WrapBaseTiles [t0; t1]) 1 i = Some v1
          ∧ GetValue (WrapBaseTiles [t0; t1]) 0 i = Some v0
          ∧ Tile_GetValue dest i 0 = Some v3 ∧ GetValue result 0 i = Some v3
          ∧ Tile_GetValue dest i 1 = Some v1 ∧ GetValue result 1 i = Some v1
          ∧ Tile_GetValue dest i 2 = Some v0 ∧ GetValue result 2 i = Some v0.
Proof.
  intros Hc0 Hc1 Hn0 Hn1 Hw0 Hw1 Hs Hnode Hpull.
  destruct t0 as [s0 r0], t1 as [s1 r1].
  unfold Tile_GetColumnCount, Tile_GetTupleCount in *. simpl in *.
  explode_lists.
  eexists _, _, _. split.
  { unfold GetNextTile. destruct Hs as [-> | ->]; rewrite Hpull, Hnode; reflexivity. }
  split; [vm_compute; reflexivity|].
  split; [vm_compute; reflexivity|].
  split.
  { intros col Hcol.
    do 3 (destruct col as [|col]; [vm_compute; reflexivity|]). lia. }
  split; [intros Heq; apply (f_equal (λ t, length (tile_schema t))) in Heq;
          vm_compute in Heq; discriminate|].
  split; [intros Heq; apply (f_equal (λ t, length (tile_schema t))) in Heq;
          vm_compute in Heq; discriminate|].
  split; [vm_compute; reflexivity|].
  intros i Hi.
  do 9 (destruct i as [|i];
        [eexists _, _, _; vm_compute; repeat split; reflexivity|]).
  lia.
Qed.

End ExecutorProperties.

(** * The test suite's runs *)

Section ExecutorRuns.

Import nstore.

(** The hypotheses of C2 on the populated tile group of the test, and what
    the test then reads at row 4 of the produced tile. *)
Lemma TwoBaseTilesWithReorderTest :
  state reorder_test_executor = READY
  ∧ SubGetNextTile (child reorder_test_executor)
    = (Some (WrapBaseTiles source_base_tiles),
       {| init_returns := []; tile_returns := [None] |})
  ∧ ∃ result dest executor',
      GetNextTile reorder_test_executor = (Some result, executor')
      ∧ NumCols result = 3%nat
      ∧ GetBaseTile result 0 = Some dest
      ∧ GetBaseTile result 1 = Some dest
      ∧ GetBaseTile result 2 = Some dest
      ∧ Tile_GetValue dest 4 0 = Some (StringValue "43")
      ∧ Tile_GetValue dest 4 1 = Some (IntegerValue 41)
      ∧ Tile_GetValue dest 4 2 = Some (IntegerValue 40).
Proof.
  split; [reflexivity|]. split; [reflexivity|].
  destruct (GetNextTile_two_base_tiles_with_reorder
              reorder_test_executor (test_tile 0) (test_tile 1)
              {| init_returns := []; tile_returns := [None] |})
    as (result & dest & executor' & Hrun & Hn & _ & Hb & _ & _ & _ & Hv).
  - reflexivity.
  - reflexivity.
  - reflexivity.
  - reflexivity.
  - apply (bool_decide_unpack _). vm_compute. exact I.
  - apply (bool_decide_unpack _). vm_compute. exact I.
  - left. reflexivity.
  - reflexivity.
  - reflexivity.
  - destruct (Hv 4%nat ltac:(lia))
      as (v3 & v1 & v0 & H3 & H1 & H0 & Hd0 & _ & Hd1 & _ & Hd2 & _).
    vm_compute in H3, H1, H0.
    injection H3 as <-. injection H1 as <-. injection H0 as <-.
    exists result, dest, executor'.
    split_and!; try assumption; apply Hb; lia.
Defined.

(** The hypotheses of C9 on the executor of the test after its first
    call: the mock child has only null left to return. *)
Lemma end_of_stream_in_the_test :
  ∃ executor exhausted,
    executor = (GetNextTile reorder_test_executor).2
    ∧ state executor = PRODUCING
    ∧ SubGetNextTile (child executor)
      = (None, {| init_returns := []; tile_returns := [] |})
    ∧ GetNextTile executor = (None, exhausted)
    ∧ GetNextTiles 3 exhausted = ([None; None; None], exhausted).
Proof.
  exists (GetNextTile reorder_test_executor).2.
  destruct (proj2 (GetNextTile_end_of_stream (GetNextTile reorder_test_executor).2)
              {| init_returns := []; tile_returns := [] |} 3%nat)
    as (exhausted & Hrun & _ & _ & Hmore).
  - right. reflexivity.
  - reflexivity.
  - exists exhausted. split_and!; [reflexivity | reflexivity | reflexivity | exact Hrun | exact Hmore].
Defined.

End ExecutorRuns.

(** * Further properties of the catalog *)

Section CatalogLists.

(** ** Facts about the vectors the catalog keeps *)

Context {A : Type}.
Implicit Types (l : list A).

Lemma filter_all (P : A → Prop) `{!∀ x, Decision (P x)} l :
  Forall P l → filter P l = l.
Proof.
  induction 1 as [|x l Hx _ IH]; [done|].
  by rewrite filter_cons, decide_True, IH.
Qed.

Lemma filter_none (P : A → Prop) `{!∀ x, Decision (P x)} l :
  Forall (λ x, ¬ P x) l → filter P l = [].
Proof.
  induction 1 as [|x l Hx _ IH]; [done|].
  by rewrite filter_cons, decide_False, IH.
Qed.


Lemma delete_snoc (x : A) l : delete (length l) (l ++ [x]) = l.
Proof. by rewrite delete_middle, app_nil_r. Qed.

(** A search for a property the update preserves finds the updated element
    at the same place. *)
Lemma list_find_alter_found (P : A → Prop) `{!∀ x, Decision (P x)}
    (f : A → A) (i : nat) (x : A) l :
  (∀ y, P (f y) ↔ P y) →
  list_find P l = Some (i, x) →
  list_find P (alter f i l) = Some (i, f x).
Proof.
  intros Hf (Hl & HP & Hlt)%list_find_Some. apply list_find_Some. split_and!.
  - by rewrite list_lookup_alter_eq, Hl.
  - by apply Hf.
  - intros j y Hj Hji. rewrite list_lookup_alter_ne in Hj by lia. eauto.
Qed.

Lemma alter_snoc (f : A → A) (x : A) l :
  alter f (length l) (l ++ [x]) = l ++ [f x].
Proof. by rewrite alter_app_r_alt, Nat.sub_diag by lia. Qed.

Lemma list_find_snoc (P : A → Prop) `{!∀ x, Decision (P x)} (x : A) l :
  list_find P l = None → P x → list_find P (l ++ [x]) = Some (length l, x).
Proof.
  intros Hnone HP. apply list_find_app_Some. right. split; [lia|]. split; [done|].
  rewrite Nat.sub_diag. simpl. by rewrite decide_True.
Qed.

End CatalogLists.

Section CatalogNestedLists.

(** ** Facts about the containment tree (databases, tables, indexes) *)

Context {A B : Type}.

Lemma fmap_alter_same (f : A → B) (g : A → A) (j : nat) (l : list A) :
  (∀ y, f (g y) = f y) → f <$> alter g j l = f <$> l.
Proof.
  intros Hg. revert j. induction l as [|y l IH]; intros [|j]; simpl; try done.
  - by rewrite Hg.
  - f_equal. apply IH.
Qed.

Lemma bind_alter_same (h : A → list B) (g : A → A) (j : nat) (l : list A) :
  (∀ y, h (g y) = h y) → alter g j l ≫= h = l ≫= h.
Proof.
  intros Hg. revert j. induction l as [|y l IH]; intros [|j]; try done.
  - cbn. by rewrite Hg.
  - cbn. f_equal. apply IH.
Qed.

(** Updating one element adds to the flattened list exactly what the update
    adds to that element. *)
Lemma elem_of_bind_alter (h : A → list B) (g : A → A) (extra : list B)
    (j : nat) (l : list A) (t : A) (x : B) :
  l !! j = Some t →
  (∀ y, y ∈ h (g t) ↔ y ∈ h t ∨ y ∈ extra) →
  x ∈ alter g j l ≫= h ↔ x ∈ l ≫= h ∨ x ∈ extra.
Proof.
  intros Hj Hg. rewrite !list_elem_of_bind. split.
  - intros (y & Hx & [k Hk]%list_elem_of_lookup).
    destruct (decide (j = k)) as [<-|Hne].
    + rewrite list_lookup_alter_eq, Hj in Hk. injection Hk as <-.
      apply Hg in Hx as [Hx|Hx]; [|by right]. left. exists t. split; [done|].
      by eapply list_elem_of_lookup_2.
    + rewrite list_lookup_alter_ne in Hk by done. left. exists y. split; [done|].
      by eapply list_elem_of_lookup_2.
  - intros [(y & Hx & [k Hk]%list_elem_of_lookup) | Hx].
    + destruct (decide (j = k)) as [<-|Hne].
      * assert (y = t) as -> by congruence. exists (g t). split.
        { apply Hg. by left. }
        apply list_elem_of_lookup. exists j. by rewrite list_lookup_alter_eq, Hj.
      * exists y. split; [done|]. apply list_elem_of_lookup. exists k.
        by rewrite list_lookup_alter_ne.
    + exists (g t). split.
      { apply Hg. by right. }
      apply list_elem_of_lookup. exists j. by rewrite list_lookup_alter_eq, Hj.
Qed.

Lemma fmap_bind_comm {C} (f : B → C) (h : A → list B) (l : list A) :
  f <$> (l ≫= h) = l ≫= (λ a, f <$> h a).
Proof.
  induction l as [|y l IH]; [done|]. cbn. by rewrite fmap_app, IH.
Qed.

Lemma bind_bind {C} (h : A → list B) (k : B → list C) (l : list A) :
  (l ≫= h) ≫= k = l ≫= (λ a, h a ≫= k).
Proof.
  induction l as [|y l IH]; [done|]. cbn. by rewrite bind_app, IH.
Qed.

End CatalogNestedLists.

Section CatalogExtras.

Import peloton.
Context {K : Constants}.

Implicit Types (c : Catalog) (database : Database) (table : DataTable).

(** ** Lookups in pg_database *)

Lemma GetDatabaseOid_absent c (name : string) :
  name ∉ (pg_database_name <$> pg_database c) →
  DatabaseCatalog_GetDatabaseOid name c = Some (INVALID_OID, c).
Proof.
  intros Hn. unfold DatabaseCatalog_GetDatabaseOid, gets.
  rewrite (proj2 (list_find_None _ _)); [done|].
  apply Forall_forall. intros t Ht Hname. apply Hn.
  apply list_elem_of_fmap. by exists t.
Qed.

Lemma find_name_snoc (l : list DatabaseTuple) (name : string) (db_oid : Z) :
  name ∉ (pg_database_name <$> l) →
  list_find (λ t, pg_database_name t = name)
            (l ++ [{| pg_database_oid := db_oid; pg_database_name := name |}])
  = Some (length l, {| pg_database_oid := db_oid; pg_database_name := name |}).
Proof.
  intros Hn. apply list_find_app_Some. right. split; [lia|]. split.
  - apply list_find_None, Forall_forall. intros t Ht Hname. apply Hn.
    apply list_elem_of_fmap. by exists t.
  - rewrite Nat.sub_diag. simpl. by rewrite decide_True.
Qed.

Lemma find_oid_snoc (l : list Database) database (db_oid : Z) :
  db_oid ∉ (database_oid <$> l) →
  database_oid database = db_oid →
  list_find (λ d, database_oid d = db_oid) (l ++ [database])
  = Some (length l, database).
Proof.
  intros Hn Hd. apply list_find_app_Some. right. split; [lia|]. split.
  - apply list_find_None, Forall_forall. intros d Hin Hoid. apply Hn.
    apply list_elem_of_fmap. by exists d.
  - rewrite Nat.sub_diag. simpl. by rewrite decide_True.
Qed.

(** ** CreateDatabase *)

Lemma CreateDatabase_fresh_run c (name : string) :
  name ∉ (pg_database_name <$> pg_database c) →
  CreateDatabase name c
  = Some (SUCCESS,
          set_pg_database
            (λ l, l ++ [{| pg_database_oid := oid_ c; pg_database_name := name |}])
            (set_databases
               (λ l, l ++ [{| database_oid := oid_ c; database_name := name;
                              tables := [] |}])
               (set_oid (λ o, oid_wrap (o + 1)) c))).
Proof.
  intros Hn. unfold CreateDatabase, mbind at 1, M_bind at 1.
  rewrite GetDatabaseOid_absent by done.
  rewrite decide_False by (intros H; by apply H). reflexivity.
Qed.

(** X1. CreateDatabase with a name that no pg_database tuple carries
    reports SUCCESS, appends a database with the next oid, that name and no
    table, appends the matching tuple, advances the oid counter and touches
    nothing else.  The new database is then found by its name through
    pg_database, by its offset, and, when no older live database has the
    same oid, by GetDatabaseWithName. *)
Theorem CreateDatabase_registers_database c (name : string) :
  name ∉ (pg_database_name <$> pg_database c) →
  ∃ c',
    CreateDatabase name c = Some (SUCCESS, c')
    ∧ databases_ c'
      = databases_ c
        ++ [{| database_oid := oid_ c; database_name := name; tables := [] |}]
    ∧ pg_database c'
      = pg_database c
        ++ [{| pg_database_oid := oid_ c; pg_database_name := name |}]
    ∧ pg_table c' = pg_table c
    ∧ pg_attribute c' = pg_attribute c
    ∧ pg_index c' = pg_index c
    ∧ oid_ c' = oid_wrap (oid_ c + 1)
    ∧ DatabaseCatalog_GetDatabaseOid name c' = Some (oid_ c, c')
    ∧ GetDatabaseWithOffset (length (databases_ c)) c'
      = Some ({| database_oid := oid_ c; database_name := name; tables := [] |}, c')
    ∧ (oid_ c ∉ live_database_oids c →
       GetDatabaseWithName name c'
       = Some (Some (length (databases_ c),
                     {| database_oid := oid_ c; database_name := name;
                        tables := [] |}), c')).
Proof.
  intros Hn. eexists. split.
  { unfold CreateDatabase, mbind at 1, M_bind at 1.
    rewrite GetDatabaseOid_absent by done.
    rewrite decide_False by (intros H; by apply H). reflexivity. }
  cbn -[list_find lookup]. split_and!; try reflexivity.
  - unfold DatabaseCatalog_GetDatabaseOid, gets. cbn -[list_find].
    by rewrite find_name_snoc.
  - unfold GetDatabaseWithOffset, deref. cbn -[lookup].
    by rewrite list_lookup_middle.
  - intros Hfresh.
    unfold GetDatabaseWithName, DatabaseCatalog_GetDatabaseOid, GetDatabaseWithOid,
      gets, mbind, M_bind. cbn -[list_find].
    rewrite find_name_snoc by done. cbn -[list_find].
    by rewrite find_oid_snoc.
Qed.

(** X2. Name uniqueness: after a successful CreateDatabase of a fresh name,
    a second CreateDatabase of the same name reports FAILURE and changes
    nothing, so exactly one pg_database tuple carries the name.  The oid
    handed to the first database must not be the sentinel. *)
Theorem CreateDatabase_twice_fails c (name : string) :
  name ∉ (pg_database_name <$> pg_database c) →
  oid_ c ≠ INVALID_OID →
  ∃ c',
    CreateDatabase name c = Some (SUCCESS, c')
    ∧ CreateDatabase name c' = Some (FAILURE, c')
    ∧ length (filter (λ t, pg_database_name t = name) (pg_database c')) = 1%nat.
Proof.
  intros Hn Hv. eexists. split; [by apply CreateDatabase_fresh_run|]. split.
  - unfold CreateDatabase, mbind at 1, M_bind at 1,
      DatabaseCatalog_GetDatabaseOid, gets. cbn -[list_find].
    rewrite find_name_snoc by done. cbn [pg_database_oid].
    by destruct (decide (oid_ c ≠ INVALID_OID)).
  - cbn -[filter]. rewrite filter_app, length_app, filter_none.
    + by rewrite filter_cons, decide_True.
    + apply Forall_forall. intros t Ht Hname. apply Hn.
      apply list_elem_of_fmap. by exists t.
Qed.

(** ** DropDatabaseWithOid *)

Lemma Catalog_eq c1 c2 :
  databases_ c1 = databases_ c2 → pg_database c1 = pg_database c2 →
  pg_table c1 = pg_table c2 → pg_attribute c1 = pg_attribute c2 →
  pg_index c1 = pg_index c2 → oid_ c1 = oid_ c2 → c1 = c2.
Proof. destruct c1, c2. simpl. by intros -> -> -> -> -> ->. Qed.

(** With no pg_table tuple for the database the table loop does nothing. *)
Lemma DropDatabaseWithOid_no_tables c (db_oid : Z) :
  db_oid ∉ (pg_table_database_oid <$> pg_table c) →
  DropDatabaseWithOid db_oid c
  = (deleted ← DatabaseCatalog_DeleteDatabase db_oid;
     if negb deleted then mret FAILURE else
     it ← GetDatabaseWithOid db_oid;
     match it with
     | Some (database_offset, _) =>
       modify (set_databases (delete database_offset));; mret SUCCESS
     | None => mret FAILURE
     end) c.
Proof.
  intros Hn. unfold DropDatabaseWithOid, mbind at 1, M_bind at 1,
    TableCatalog_GetTableOids, gets.
  rewrite filter_none; [done|].
  apply Forall_forall. intros t Ht Hoid. apply Hn.
  apply list_elem_of_fmap. by exists t.
Qed.

Lemma Exists_oid (l : list DatabaseTuple) (db_oid : Z) :
  Exists (λ t, pg_database_oid t = db_oid) l ↔ db_oid ∈ pg_database_oid <$> l.
Proof.
  rewrite Exists_exists, list_elem_of_fmap. split.
  - intros (t & Ht & Hoid). by exists t.
  - intros (t & Hoid & Ht). by exists t.
Qed.

Lemma filter_oid_absent (l : list DatabaseTuple) (db_oid : Z) :
  db_oid ∉ (pg_database_oid <$> l) →
  filter (λ t, pg_database_oid t ≠ db_oid) l = l.
Proof.
  intros Hn. apply filter_all, Forall_forall. intros t Ht Hoid. apply Hn.
  apply list_elem_of_fmap. by exists t.
Qed.

(** X3. Create and drop compose to the identity: on a catalog where the
    next oid is not in use (by a live database, a pg_database tuple or a
    pg_table tuple), CreateDatabase of a fresh name followed by
    DropDatabaseWithOid of the oid it was given reports SUCCESS and leaves
    the catalog as it was, the oid counter apart. *)
Theorem CreateDatabase_then_DropDatabaseWithOid c (name : string) :
  name ∉ (pg_database_name <$> pg_database c) →
  oid_ c ∉ live_database_oids c →
  oid_ c ∉ catalog_database_oids c →
  oid_ c ∉ (pg_table_database_oid <$> pg_table c) →
  (CreateDatabase name ≫= λ _, DropDatabaseWithOid (oid_ c)) c
  = Some (SUCCESS, set_oid (λ o, oid_wrap (o + 1)) c).
Proof.
  intros Hn Hlive Htuple Htables.
  unfold mbind at 1, M_bind at 1. rewrite CreateDatabase_fresh_run by done.
  rewrite DropDatabaseWithOid_no_tables by done.
  unfold mbind at 1, M_bind at 1, DatabaseCatalog_DeleteDatabase.
  cbn -[list_find filter].
  rewrite bool_decide_eq_true_2
    by (apply Exists_oid; rewrite fmap_app; apply elem_of_app; right; by left).
  cbn -[list_find filter].
  unfold mbind at 1, M_bind at 1, GetDatabaseWithOid, gets. cbn -[list_find filter].
  rewrite find_oid_snoc by done.
  unfold mbind, M_bind, modify, mret, M_ret.
  f_equal. f_equal. apply Catalog_eq; cbn -[filter]; try done.
  - apply delete_snoc.
  - rewrite filter_app, filter_oid_absent by done.
    rewrite filter_cons, decide_False by (intros H; by apply H).
    by rewrite app_nil_r.
Qed.

(** X4. DropDatabaseWithOid is not atomic on failure: when pg_database has a
    tuple for the oid but no live database carries it (and pg_table names no
    table of it), the call deletes the tuple and then reports FAILURE. *)
Theorem DropDatabaseWithOid_fails_after_deleting_the_tuple c (db_oid : Z) :
  db_oid ∈ catalog_database_oids c →
  db_oid ∉ live_database_oids c →
  db_oid ∉ (pg_table_database_oid <$> pg_table c) →
  ∃ c',
    DropDatabaseWithOid db_oid c = Some (FAILURE, c')
    ∧ pg_database c' = filter (λ t, pg_database_oid t ≠ db_oid) (pg_database c)
    ∧ (db_oid ∉ catalog_database_oids c')
    ∧ c' ≠ c.
Proof.
  intros Htuple Hlive Htables.
  exists (set_pg_database (filter (λ t, pg_database_oid t ≠ db_oid)) c).
  assert (db_oid ∉ catalog_database_oids
            (set_pg_database (filter (λ t, pg_database_oid t ≠ db_oid)) c)) as Hgone.
  { unfold catalog_database_oids. cbn -[filter].
    intros (t & Hoid & [Hne _]%list_elem_of_filter)%list_elem_of_fmap. done. }
  split_and!; [|done|done|intros Heq; by rewrite Heq in Hgone].
  rewrite DropDatabaseWithOid_no_tables by done.
  unfold mbind at 1, M_bind at 1, DatabaseCatalog_DeleteDatabase.
  rewrite bool_decide_eq_true_2 by (by apply Exists_oid).
  cbn -[filter list_find].
  unfold mbind, M_bind, GetDatabaseWithOid, gets. cbn -[filter list_find].
  rewrite (proj2 (list_find_None _ _)); [done|].
  apply Forall_forall. intros d Hd Hoid. apply Hlive.
  apply list_elem_of_fmap. by exists d.
Qed.



(** X6. A database registered through AddDatabase is dropped by
    DropDatabaseWithOid only if its oid already contains the DATABASE tag:
    on a catalog that uses neither the oid nor the tagged oid, the pair of
    calls restores the catalog with SUCCESS when or-ing the tag leaves the
    oid unchanged, and otherwise reports FAILURE with the database still
    live and its tuple still in pg_database. *)
Theorem AddDatabase_then_DropDatabaseWithOid c database :
  database_oid database ∉ live_database_oids c →
  database_oid database ∉ catalog_database_oids c →
  database_oid database ∉ (pg_table_database_oid <$> pg_table c) →
  (Z.lor (database_oid database) CatalogType_DATABASE = database_oid database →
   (AddDatabase database ≫= λ _, DropDatabaseWithOid (database_oid database)) c
   = Some (SUCCESS, c))
  ∧ (Z.lor (database_oid database) CatalogType_DATABASE ≠ database_oid database →
     ∃ c',
       AddDatabase database c = Some (tt, c')
       ∧ DropDatabaseWithOid (database_oid database) c' = Some (FAILURE, c')
       ∧ HasDatabase (database_oid database) c' = Some (true, c')).
Proof.
  intros Hlive Htuple Htables. split.
  - intros Htag.
    unfold mbind at 1, M_bind at 1, AddDatabase, mbind at 1, M_bind at 1, modify,
      DatabaseCatalog_InsertDatabase, modify.
    rewrite DropDatabaseWithOid_no_tables by done.
    unfold mbind at 1, M_bind at 1, DatabaseCatalog_DeleteDatabase.
    cbn -[list_find filter]. rewrite Htag.
    rewrite bool_decide_eq_true_2
      by (apply Exists_oid; rewrite fmap_app; apply elem_of_app; right; by left).
    cbn -[list_find filter].
    unfold mbind at 1, M_bind at 1, GetDatabaseWithOid, gets. cbn -[list_find filter].
    rewrite find_oid_snoc by done.
    unfold mbind, M_bind, modify, mret, M_ret.
    f_equal. f_equal. apply Catalog_eq; cbn -[filter]; try done.
    + apply delete_snoc.
    + rewrite filter_app, filter_oid_absent by done.
      rewrite filter_cons, decide_False by (intros H; by apply H).
      by rewrite app_nil_r.
  - intros Htag.
    exists (set_pg_database
              (λ l, l ++ [{| pg_database_oid :=
                               Z.lor (database_oid database) CatalogType_DATABASE;
                             pg_database_name := "" |}])
              (set_databases (λ l, l ++ [database]) c)).
    split; [reflexivity|]. split.
    + rewrite DropDatabaseWithOid_no_tables by done.
      unfold mbind at 1, M_bind at 1, DatabaseCatalog_DeleteDatabase.
      cbn -[list_find filter].
      assert (database_oid database
              ∉ pg_database_oid <$>
                  (pg_database c
                   ++ [{| pg_database_oid :=
                            Z.lor (database_oid database) CatalogType_DATABASE;
                          pg_database_name := "" |}])) as Hn.
      { rewrite fmap_app. apply not_elem_of_app. split; [done|].
        simpl. intros Heq%list_elem_of_singleton. congruence. }
      rewrite bool_decide_eq_false_2 by (by rewrite Exists_oid).
      unfold mret, M_ret. cbn -[filter]. f_equal. f_equal.
      apply Catalog_eq; cbn -[filter]; try done.
      by apply filter_oid_absent.
    + unfold HasDatabase, mbind, M_bind, GetDatabaseWithOid, gets.
      cbn -[list_find]. by rewrite find_oid_snoc.
Qed.

(** ** CreatePrimaryIndex and CreateTable *)

Lemma GetDatabaseWithName_found c (name : string) (i : nat) database :
  GetDatabaseWithName name c = Some (Some (i, database), c) →
  databases_ c !! i = Some database
  ∧ DatabaseCatalog_GetDatabaseOid name c = Some (database_oid database, c)
  ∧ GetDatabaseWithOid (database_oid database) c = Some (Some (i, database), c).
Proof.
  unfold GetDatabaseWithName, mbind, M_bind, DatabaseCatalog_GetDatabaseOid,
    GetDatabaseWithOid, gets.
  set (o := match list_find _ (pg_database c) with
            | Some (_, t) => pg_database_oid t
            | None => INVALID_OID
            end).
  intros [= Hfind]. pose proof Hfind as (Hl & Hoid & _)%list_find_Some.
  rewrite Hoid, Hfind. done.
Qed.

(** A lookup by name survives an update of the found database that keeps
    its oid, whatever happens to the tables, the other three catalog tables
    and the counter. *)
Lemma GetDatabaseWithName_alter c c1 (name : string) (i : nat) database
    (f : Database → Database) :
  GetDatabaseWithName name c = Some (Some (i, database), c) →
  (∀ d, database_oid (f d) = database_oid d) →
  pg_database c1 = pg_database c →
  databases_ c1 = alter f i (databases_ c) →
  GetDatabaseWithName name c1 = Some (Some (i, f database), c1).
Proof.
  unfold GetDatabaseWithName, mbind, M_bind, DatabaseCatalog_GetDatabaseOid,
    GetDatabaseWithOid, gets.
  intros [= Hfind] Hf Htuples Hlive. rewrite Htuples, Hlive.
  erewrite list_find_alter_found; [done| |exact Hfind].
  intros d. by rewrite Hf.
Qed.

Lemma CreatePrimaryIndex_run c (database_name name : string)
    (i : nat) database (j : nat) table :
  GetDatabaseWithName database_name c = Some (Some (i, database), c) →
  Database_GetTableWithName name database = Some (j, table) →
  CreatePrimaryIndex database_name name c
  = Some (SUCCESS,
          set_databases
            (alter (set_tables
                      (alter (DataTable_AddIndex
                                (primary_key_index (oid_ c) database table)) j)) i)
            (set_oid (λ o, oid_wrap (o + 1)) c)).
Proof.
  intros Hdb Htb. unfold CreatePrimaryIndex, mbind at 1, M_bind at 1.
  rewrite Hdb, Htb. reflexivity.
Qed.

Lemma CreateTable_primary_run
    c (database_name name : string) (schema : Schema) (i : nat) database :
  GetDatabaseWithName database_name c = Some (Some (i, database), c) →
  Database_GetTableWithName name database = None →
  existsb IsPrimary (GetColumns schema) = true →
  let table0 :=
    TableFactory_GetDataTable (database_oid database) (oid_ c) schema name in
  let table' :=
    DataTable_AddIndex
      (primary_key_index (oid_wrap (oid_ c + 1)) database table0) table0 in
  ∃ c',
    CreateTable database_name name schema c = Some (Some SUCCESS, c')
    ∧ databases_ c'
      = alter (set_tables (λ ts, ts ++ [table'])) i (databases_ c)
    ∧ pg_table c'
      = pg_table c
        ++ [{| pg_table_oid := oid_ c; pg_table_name := name;
               pg_table_database_oid := database_oid database;
               pg_table_database_name := database_name |}]
    ∧ pg_attribute c'
      = pg_attribute c ++ (column_tuple (oid_ c) <$> GetColumns schema)
    ∧ pg_database c' = pg_database c
    ∧ pg_index c' = pg_index c
    ∧ oid_ c' = oid_wrap (oid_wrap (oid_ c + 1) + 1).
Proof.
  intros Hdb Htb Hpk table0 table'.
  pose proof (GetDatabaseWithName_found _ _ _ _ Hdb) as (Hl & _ & _).
  set (c1 := set_pg_attribute
               (λ l, l ++ (column_tuple (oid_ c) <$> GetColumns schema))
               (set_pg_table
                  (λ l, l ++ [{| pg_table_oid := oid_ c; pg_table_name := name;
                                 pg_table_database_oid := database_oid database;
                                 pg_table_database_name := database_name |}])
                  (set_databases (alter (Database_AddTable table0) i)
                     (set_oid (λ o, oid_wrap (o + 1)) c)))).
  assert (GetDatabaseWithName database_name c1
          = Some (Some (i, Database_AddTable table0 database), c1)) as Hdb1.
  { by apply (GetDatabaseWithName_alter c). }
  assert (Database_GetTableWithName name (Database_AddTable table0 database)
          = Some (length (tables database), table0)) as Htb1.
  { unfold Database_GetTableWithName. cbn -[list_find].
    by apply list_find_snoc. }
  set (c' := set_databases
               (alter (set_tables
                         (alter (DataTable_AddIndex
                                   (primary_key_index (oid_ c1)
                                      (Database_AddTable table0 database) table0))
                                (length (tables database)))) i)
               (set_oid (λ o, oid_wrap (o + 1)) c1)).
  assert (databases_ c'
          = alter (set_tables (λ ts, ts ++ [table'])) i (databases_ c)) as Hlive.
  { unfold c', c1. cbn -[alter]. rewrite list_alter_alter_eq.
    apply list_alter_ext; [|done]. intros d Hd.
    assert (d = database) as -> by congruence.
    unfold compose, Database_AddTable, set_tables. cbn -[alter].
    by rewrite alter_snoc. }
  exists c'. split_and!; try done.
  - unfold CreateTable, mbind at 1, M_bind at 1. rewrite Hdb, Htb.
    unfold mbind at 1, M_bind at 1, GetNextOid.
    unfold mbind at 1, M_bind at 1, Database_at, modify.
    unfold mbind at 1, M_bind at 1, TableCatalog_InsertTable, modify.
    unfold mbind at 1, M_bind at 1. rewrite insert_columns_spec.
    cbn [table_schema TableFactory_GetDataTable]. rewrite Hpk.
    cbn [orb]. unfold mbind at 1, M_bind at 1.
    fold table0. cbn [oid_ set_oid]. fold c1.
    by rewrite (CreatePrimaryIndex_run c1 database_name name i
                  (Database_AddTable table0 database)
                  (length (tables database)) table0).
Qed.

(** X7. CreateTable with a primary column, in a database that resolves
    and has no table of that name, reports SUCCESS.  It gives the table the
    next oid and its primary-key index the one after, appends the table
    (with exactly that index) to the database, appends the pg_table tuple
    and one pg_attribute tuple per column, and leaves pg_database and
    pg_index as they were.  Afterwards the table is found by name, and any
    further CreateTable of that name in that database reports FAILURE and
    changes nothing. *)
Theorem CreateTable_with_primary_key
    c (database_name name : string) (schema : Schema) (i : nat) database :
  GetDatabaseWithName database_name c = Some (Some (i, database), c) →
  Database_GetTableWithName name database = None →
  existsb IsPrimary (GetColumns schema) = true →
  let table0 :=
    TableFactory_GetDataTable (database_oid database) (oid_ c) schema name in
  let table' :=
    DataTable_AddIndex
      (primary_key_index (oid_wrap (oid_ c + 1)) database table0) table0 in
  ∃ c',
    CreateTable database_name name schema c = Some (Some SUCCESS, c')
    ∧ databases_ c'
      = alter (set_tables (λ ts, ts ++ [table'])) i (databases_ c)
    ∧ pg_table c'
      = pg_table c
        ++ [{| pg_table_oid := oid_ c; pg_table_name := name;
               pg_table_database_oid := database_oid database;
               pg_table_database_name := database_name |}]
    ∧ pg_attribute c'
      = pg_attribute c ++ (column_tuple (oid_ c) <$> GetColumns schema)
    ∧ pg_database c' = pg_database c
    ∧ pg_index c' = pg_index c
    ∧ oid_ c' = oid_wrap (oid_wrap (oid_ c + 1) + 1)
    ∧ GetTableWithName database_name name c'
      = Some (Some (length (tables database), table'), c')
    ∧ ∀ schema', CreateTable database_name name schema' c' = Some (Some FAILURE, c').
Proof.
  intros Hdb Htb Hpk table0 table'.
  destruct (CreateTable_primary_run c database_name name schema i database
              Hdb Htb Hpk)
    as (c' & Hrun & Hlive & Hpt & Hpa & Hpd & Hpi & Hctr).
  fold table0 in Hlive. fold table' in Hlive.
  assert (GetDatabaseWithName database_name c'
          = Some (Some (i, set_tables (λ ts, ts ++ [table']) database), c'))
    as Hdb'.
  { by apply (GetDatabaseWithName_alter c). }
  assert (Database_GetTableWithName name
            (set_tables (λ ts, ts ++ [table']) database)
          = Some (length (tables database), table')) as Htb'.
  { unfold Database_GetTableWithName. cbn -[list_find].
    by apply list_find_snoc. }
  exists c'. split_and!; try done.
  - unfold GetTableWithName, mbind, M_bind. by rewrite Hdb', Htb'.
  - intros schema'. unfold CreateTable, mbind at 1, M_bind at 1.
    by rewrite Hdb', Htb'.
Qed.

(** X8. CreatePrimaryIndex does not look for an existing primary-key
    index: called twice on the same table it reports SUCCESS twice and the
    table ends with two PRIMARY_KEY indexes over the same key attributes,
    with consecutive oids. *)
Theorem CreatePrimaryIndex_twice_attaches_two_indexes
    c (database_name name : string) (i : nat) database (j : nat) table :
  GetDatabaseWithName database_name c = Some (Some (i, database), c) →
  Database_GetTableWithName name database = Some (j, table) →
  ∃ c' database' table',
    (CreatePrimaryIndex database_name name
       ≫= λ _, CreatePrimaryIndex database_name name) c
    = Some (SUCCESS, c')
    ∧ databases_ c' !! i = Some database'
    ∧ tables database' !! j = Some table'
    ∧ indexes table'
      = indexes table
        ++ [primary_key_index (oid_ c) database table;
            primary_key_index (oid_wrap (oid_ c + 1)) database table].
Proof.
  intros Hdb Htb.
  pose proof (GetDatabaseWithName_found _ _ _ _ Hdb) as (Hl & _ & _).
  assert (tables database !! j = Some table) as Hlt.
  { unfold Database_GetTableWithName in Htb.
    by apply list_find_Some in Htb as (? & _). }
  set (pk1 := primary_key_index (oid_ c) database table).
  set (c1 := set_databases
               (alter (set_tables (alter (DataTable_AddIndex pk1) j)) i)
               (set_oid (λ o, oid_wrap (o + 1)) c)).
  assert (GetDatabaseWithName database_name c1
          = Some (Some (i, set_tables (alter (DataTable_AddIndex pk1) j) database),
                  c1)) as Hdb1.
  { by apply (GetDatabaseWithName_alter c). }
  assert (Database_GetTableWithName name
            (set_tables (alter (DataTable_AddIndex pk1) j) database)
          = Some (j, DataTable_AddIndex pk1 table)) as Htb1.
  { unfold Database_GetTableWithName. cbn -[list_find alter].
    by apply list_find_alter_found. }
  eexists _, _, _. split.
  { unfold mbind at 1, M_bind at 1.
    rewrite (CreatePrimaryIndex_run c database_name name i database j table)
      by done.
    fold pk1. fold c1.
    by rewrite (CreatePrimaryIndex_run c1 database_name name i _ j _ Hdb1 Htb1). }
  cbn -[lookup alter]. split.
  { rewrite !list_lookup_alter_eq, Hl. reflexivity. }
  cbn -[lookup alter]. split.
  { rewrite !list_lookup_alter_eq, Hlt. reflexivity. }
  cbn. by rewrite <- app_assoc.
Qed.

(** ** CreateIndex *)

Lemma push_matching_absent (attr : string) (cols : list Column) (i : nat)
    (acc : list Z) :
  attr ∉ (column_name <$> cols) → push_matching attr i cols acc = acc.
Proof.
  revert i acc. induction cols as [|col cols IH]; intros i acc Hn; [done|].
  rewrite fmap_cons, not_elem_of_cons in Hn. destruct Hn as [Hne Hn].
  simpl. rewrite decide_False by done. by apply IH.
Qed.

Lemma push_matching_position (cols : list Column) (i p : nat) (col : Column)
    (acc : list Z) :
  NoDup (column_name <$> cols) →
  cols !! p = Some col →
  push_matching (column_name col) i cols acc = acc ++ [Z.of_nat (i + p)].
Proof.
  revert i p acc. induction cols as [|col0 cols IH]; intros i p acc Hd Hp; [done|].
  rewrite fmap_cons, NoDup_cons in Hd. destruct Hd as [Hn Hd].
  destruct p as [|p]; simpl in *.
  - injection Hp as ->. rewrite decide_True by done.
    rewrite push_matching_absent by done. by rewrite Nat.add_0_r.
  - rewrite decide_False.
    + rewrite (IH (S i) p) by done. do 3 f_equal. lia.
    + intros Heq. apply Hn. rewrite <- Heq.
      apply list_elem_of_fmap. exists col. split; [done|].
      by eapply list_elem_of_lookup_2.
Qed.

(** With distinct column names and every requested name present, the two
    loops resolve the request name by name, in request order. *)
Lemma resolve_key_attrs_positions (cols : list Column) (attrs : list string)
    (acc : list Z) :
  NoDup (column_name <$> cols) →
  Forall (λ attr, attr ∈ column_name <$> cols) attrs →
  ∃ zs,
    fold_left (λ key_attrs attr, push_matching attr 0 cols key_attrs) attrs acc
    = acc ++ zs
    ∧ Forall2 (λ attr z, ∃ col, 0 ≤ z ∧ cols !! Z.to_nat z = Some col
                                ∧ column_name col = attr) attrs zs.
Proof.
  intros Hd Hall. revert acc.
  induction Hall as [|attr attrs Hin _ IH]; intros acc; simpl.
  - exists []. by rewrite app_nil_r.
  - apply list_elem_of_fmap in Hin as (col & -> & Hcol).
    apply list_elem_of_lookup in Hcol as [p Hp].
    rewrite (push_matching_position cols 0 p col) by done.
    destruct (IH (acc ++ [Z.of_nat (0 + p)])) as (zs & -> & Hzs).
    exists (Z.of_nat p :: zs). rewrite <- app_assoc. split; [done|].
    constructor; [|done]. exists col. rewrite Nat2Z.id. split; [lia|done].
Qed.

Lemma CopySchema_names (cols : list Column) (attrs : list string) (zs : list Z) :
  Forall2 (λ attr z, ∃ col, 0 ≤ z ∧ cols !! Z.to_nat z = Some col
                            ∧ column_name col = attr) attrs zs →
  column_name <$> omap (λ z, cols !! Z.to_nat z) zs = attrs.
Proof.
  induction 1 as [|attr z attrs zs (col & _ & Hl & Hname) _ IH]; [done|].
  cbn. rewrite Hl. cbn. by rewrite Hname, <- IH.
Qed.

(** X9. On a table with pairwise distinct column names, a CreateIndex call
    whose database and table resolve and whose requested names are all
    columns of the table reports SUCCESS.  The index gets the next oid and
    is appended to the table's indexes; its key attributes are the ordinals
    of the requested columns in the order of the request, so the key
    schema's column names are the requested names; and one pg_index tuple
    with that oid, the table's oid and the [unique] argument is appended.
    When the oid is new to the table and to pg_index, GetIndexWithOid and
    the pg_index lookup find the index again. *)
Theorem CreateIndex_resolves_request_in_order
    c (database_name name : string) (index_attr : list string) (iname : string)
    (unique : bool) (ty : IndexType) (db_oid tb_oid : Z)
    (i : nat) database (j : nat) table :
  DatabaseCatalog_GetDatabaseOid database_name c = Some (db_oid, c) →
  TableCatalog_GetTableOid name c = Some (tb_oid, c) →
  db_oid ≠ INVALID_OID → tb_oid ≠ INVALID_OID →
  GetDatabaseWithOid db_oid c = Some (Some (i, database), c) →
  Database_GetTableWithOid tb_oid database = Some (j, table) →
  NoDup (column_name <$> GetColumns (table_schema table)) →
  Forall (λ attr, attr ∈ column_name <$> GetColumns (table_schema table))
         index_attr →
  ∃ c' index database' table',
    CreateIndex database_name name index_attr iname unique ty c = Some (SUCCESS, c')
    ∧ databases_ c' !! i = Some database'
    ∧ tables database' !! j = Some table'
    ∧ indexes table' = indexes table ++ [index]
    ∧ index_oid (metadata index) = oid_ c
    ∧ column_name <$> columns (key_schema (metadata index)) = index_attr
    ∧ Forall2 (λ attr z, ∃ col, 0 ≤ z
                 ∧ GetColumns (table_schema table) !! Z.to_nat z = Some col
                 ∧ column_name col = attr)
              index_attr (key_attrs (metadata index))
    ∧ pg_index c'
      = pg_index c
        ++ [{| pg_index_oid := oid_ c; pg_index_name := iname;
               pg_index_table_oid := tb_oid; pg_index_database_oid := db_oid;
               pg_index_unique_keys := unique |}]
    ∧ (oid_ c ∉ (Index_GetOid <$> indexes table) →
       GetIndexWithOid db_oid tb_oid (oid_ c) c' = Some (Some index, c'))
    ∧ (oid_ c ∉ catalog_index_oids c →
       IndexCatalog_GetTableidByOid (oid_ c) c' = Some (tb_oid, c')).
Proof.
  intros Hdo Hto Hdv Htv Hdb Htb Hd Hall.
  destruct (resolve_key_attrs_positions _ index_attr [] Hd Hall)
    as (zs & Hzs & Hpos).
  simpl in Hzs. fold (resolve_key_attrs (GetColumns (table_schema table)) index_attr)
    in Hzs.
  assert (databases_ c !! i = Some database) as Hl.
  { unfold GetDatabaseWithOid, gets in Hdb. injection Hdb as Hdb.
    by apply list_find_Some in Hdb as (? & _). }
  assert (tables database !! j = Some table) as Hlt.
  { unfold Database_GetTableWithOid in Htb.
    by apply list_find_Some in Htb as (? & _). }
  unfold CreateIndex, mbind at 1, M_bind at 1. rewrite Hdo.
  rewrite decide_False by done.
  unfold mbind at 1, M_bind at 1. rewrite Hto.
  rewrite decide_False by done.
  unfold mbind at 1, M_bind at 1. rewrite Hdb, Htb.
  rewrite decide_False
    by (rewrite Hzs; intros Hne; apply Hne; symmetry; by eapply Forall2_length).
  eexists _, _, _, _. split; [reflexivity|].
  cbn -[lookup alter list_find]. split.
  { rewrite list_lookup_alter_eq, Hl. reflexivity. }
  cbn -[lookup alter list_find]. split.
  { rewrite list_lookup_alter_eq, Hlt. reflexivity. }
  cbn -[list_find]. split; [reflexivity|].
  assert (∀ m1 m2 : IndexMetadata,
            (if negb unique then m1 else m2) = (if unique then m2 else m1))
    as Hif by (by destruct unique).
  split; [by destruct unique|].
  split; [destruct unique; cbn; rewrite Hzs; by apply CopySchema_names|].
  split; [destruct unique; cbn; by rewrite Hzs|].
  split; [done|]. split.
  - intros Hfresh.
    unfold GetIndexWithOid, GetTableWithOid, mbind, M_bind, GetDatabaseWithOid, gets.
    cbn -[list_find alter].
    unfold GetDatabaseWithOid, gets in Hdb. injection Hdb as Hdb.
    erewrite list_find_alter_found; [| |exact Hdb]; [|done].
    unfold Database_GetTableWithOid in *. cbn -[list_find alter].
    erewrite list_find_alter_found; [| |exact Htb]; [|done].
    unfold DataTable_GetIndexWithOid. cbn -[list_find].
    rewrite list_find_snoc; [done| |by destruct unique].
    apply list_find_None, Forall_forall. intros x Hx Hoid. apply Hfresh.
    apply list_elem_of_fmap. by exists x.
  - intros Hfresh. unfold IndexCatalog_GetTableidByOid, gets. cbn -[list_find].
    rewrite list_find_snoc; [done| |done].
    apply list_find_None, Forall_forall. intros x Hx Hoid. apply Hfresh.
    apply list_elem_of_fmap. by exists x.
Qed.

(** ** The bookkeeping invariant under CreateDatabase and CreateIndex *)

(** An update of one table that keeps its oid and its schema changes none
    of the live database oids, table oids and column keys. *)
Lemma live_sets_alter_table c c' (i j : nat) (g : DataTable → DataTable) :
  (∀ t, table_oid (g t) = table_oid t) →
  (∀ t, table_schema (g t) = table_schema t) →
  databases_ c' = alter (set_tables (alter g j)) i (databases_ c) →
  live_database_oids c' = live_database_oids c
  ∧ live_table_oids c' = live_table_oids c
  ∧ live_column_keys c' = live_column_keys c.
Proof.
  intros Hoid Hschema Hlive.
  unfold live_database_oids, live_table_oids, live_column_keys, live_tables.
  rewrite Hlive. split_and!.
  - by apply fmap_alter_same.
  - rewrite !fmap_bind_comm. apply bind_alter_same. intros d. cbn.
    by apply fmap_alter_same.
  - rewrite !bind_bind. apply bind_alter_same. intros d. cbn.
    apply bind_alter_same. intros t. by rewrite Hoid, Hschema.
Qed.

Lemma live_indexes_add_index c c' (i j : nat) database table (index : Index) :
  databases_ c !! i = Some database →
  tables database !! j = Some table →
  databases_ c'
  = alter (set_tables (alter (DataTable_AddIndex index) j)) i (databases_ c) →
  ∀ x, x ∈ live_index_oids c' ↔ x ∈ live_index_oids c ∨ x = Index_GetOid index.
Proof.
  intros Hl Hlt Hlive x. unfold live_index_oids, live_indexes, live_tables.
  rewrite Hlive, !bind_bind, !list_elem_of_fmap.
  assert (∀ y, y ∈ alter (set_tables (alter (DataTable_AddIndex index) j)) i
                       (databases_ c) ≫= (λ d, tables d ≫= indexes)
               ↔ y ∈ databases_ c ≫= (λ d, tables d ≫= indexes) ∨ y ∈ [index])
    as Hmem.
  { intros y. apply (elem_of_bind_alter _ _ [index] i _ database); [done|].
    intros z. cbn.
    apply (elem_of_bind_alter _ _ [index] j _ table); [done|].
    intros w. cbn. by rewrite elem_of_app. }
  split.
  - intros (y & -> & [Hy| ->%list_elem_of_singleton]%Hmem).
    + left. by exists y.
    + by right.
  - intros [(y & -> & Hy) | ->].
    + exists y. split; [done|]. apply Hmem. by left.
    + exists index. split; [done|]. apply Hmem. right. by left.
Qed.

(** X10. CreateIndex keeps the dual bookkeeping: from a catalog whose live
    oids and catalog-tuple oids agree for databases, tables, columns and
    indexes, every CreateIndex call that reports SUCCESS leads to a catalog
    where they agree again. *)
Theorem CreateIndex_keeps_dual_bookkeeping
    c c' (database_name name : string) (index_attr : list string)
    (iname : string) (unique : bool) (ty : IndexType) :
  dual_bookkeeping c →
  CreateIndex database_name name index_attr iname unique ty c = Some (SUCCESS, c') →
  dual_bookkeeping c'.
Proof.
  intros (Hdbs & Htbs & Hcols & Hidx).
  unfold CreateIndex, mbind at 1, M_bind at 1, DatabaseCatalog_GetDatabaseOid, gets.
  destruct (decide _); [done|].
  unfold mbind at 1, M_bind at 1, TableCatalog_GetTableOid, gets.
  destruct (decide _); [done|].
  unfold mbind at 1, M_bind at 1, GetDatabaseWithOid, gets.
  destruct (list_find _ (databases_ c)) as [[i d]|] eqn:Hd; [|done].
  destruct (Database_GetTableWithOid _ d) as [[j t]|] eqn:Ht; [|done].
  destruct (decide _); [done|].
  apply list_find_Some in Hd as (Hd & _).
  apply list_find_Some in Ht as (Ht & _).
  intros [= <-].
  match goal with
  | |- dual_bookkeeping
         (set_pg_index _ (set_databases
            (alter (set_tables (alter (DataTable_AddIndex ?index) _)) _) _)) =>
    set (idx := index)
  end.
  set (c1 := set_pg_index _ _).
  assert (databases_ c1
          = alter (set_tables (alter (DataTable_AddIndex idx) j)) i (databases_ c))
    as Hlive by reflexivity.
  destruct (live_sets_alter_table c c1 i j (DataTable_AddIndex idx))
    as (Hd1 & Ht1 & Hc1); [done..|].
  assert (Index_GetOid idx = oid_ c) as Hnew by (unfold idx; by destruct unique).
  split_and!.
  - intros x. by rewrite Hd1.
  - intros x. by rewrite Ht1.
  - intros x. by rewrite Hc1.
  - intros x. rewrite (live_indexes_add_index c c1 i j d t idx) by done.
    unfold catalog_index_oids, c1. cbn. rewrite fmap_app, elem_of_app. cbn.
    rewrite list_elem_of_singleton, Hnew. by rewrite (Hidx x).
Qed.

(** X11. CreateDatabase keeps the dual bookkeeping: every call that reports
    SUCCESS leads from a catalog where the live and the catalog-tuple oids
    agree to one where they agree again. *)
Theorem CreateDatabase_keeps_dual_bookkeeping c c' (name : string) :
  dual_bookkeeping c →
  CreateDatabase name c = Some (SUCCESS, c') →
  dual_bookkeeping c'.
Proof.
  intros (Hdbs & Htbs & Hcols & Hidx).
  unfold CreateDatabase, mbind at 1, M_bind at 1, DatabaseCatalog_GetDatabaseOid, gets.
  destruct (decide _); [done|]. intros [= <-].
  unfold dual_bookkeeping, same_set, live_database_oids, catalog_database_oids,
    live_table_oids, catalog_table_oids, live_column_keys, catalog_column_keys,
    live_index_oids, catalog_index_oids, live_indexes, live_tables.
  cbn. rewrite !fmap_app, !bind_app. cbn. rewrite !app_nil_r.
  split_and!; [|done..].
  intros x. rewrite !elem_of_app. by rewrite (Hdbs x).
Qed.

(** ** DropTable and DropTableWithOid *)

Lemma delete_columns_spec (tb_oid : Z) (cols : list Column) c :
  delete_columns tb_oid cols c
  = Some (tt,
          set_pg_attribute
            (filter (λ t, ¬ (pg_attribute_table_oid t = tb_oid
                             ∧ pg_attribute_name t ∈ column_name <$> cols))) c).
Proof.
  revert c. induction cols as [|col cols IH]; intros c.
  - cbn -[filter]. unfold mret, M_ret. f_equal. f_equal.
    apply Catalog_eq; cbn -[filter]; try done.
    symmetry. apply filter_all, Forall_forall.
    intros t _ [_ Hin]. by apply elem_of_nil in Hin.
  - cbn -[filter]. unfold mbind, M_bind, ColumnCatalog_DeleteColumn.
    rewrite IH. f_equal. f_equal. apply Catalog_eq; cbn -[filter]; try done.
    rewrite list_filter_filter. apply list_filter_iff. intros t.
    rewrite elem_of_cons. split.
    + intros [H1 H2] [Hoid [Hname|Hin]]; [by apply H2 | by apply H1].
    + intros H. split.
      * intros [Hoid Hin]. apply H. split; [done|by right].
      * intros [Hoid Hname]. apply H. split; [done|by left].
Qed.





(** X14. The missing-table case of DropTableWithOid and DropTable: an
    unknown database is reported as FAILURE with the catalog unchanged, but
    for a known database without the table the second test looks at the
    database pointer again, the null table pointer is dereferenced and no
    result is defined. *)
Theorem DropTable_edge_cases c :
  (∀ db_oid tb_oid,
     GetDatabaseWithOid db_oid c = Some (None, c) →
     DropTableWithOid db_oid tb_oid c = Some (FAILURE, c))
  ∧ (∀ db_oid tb_oid i database,
       GetDatabaseWithOid db_oid c = Some (Some (i, database), c) →
       Database_GetTableWithOid tb_oid database = None →
       DropTableWithOid db_oid tb_oid c = None)
  ∧ (∀ (database_name name : string),
       GetDatabaseWithName database_name c = Some (None, c) →
       DropTable database_name name c = Some (FAILURE, c))
  ∧ (∀ (database_name name : string) i database,
       GetDatabaseWithName database_name c = Some (Some (i, database), c) →
       Database_GetTableWithName name database = None →
       DropTable database_name name c = None).
Proof.
  split_and!.
  - intros db_oid tb_oid Hdb.
    unfold DropTableWithOid, mbind at 1, M_bind at 1. by rewrite Hdb.
  - intros db_oid tb_oid i database Hdb Htb.
    unfold DropTableWithOid, mbind at 1, M_bind at 1. rewrite Hdb.
    cbn [is_nullptr]. unfold mbind at 1, M_bind at 1, deref. by rewrite Htb.
  - intros database_name name Hdb.
    unfold DropTable, mbind at 1, M_bind at 1. by rewrite Hdb.
  - intros database_name name i database Hdb Htb.
    unfold DropTable, mbind at 1, M_bind at 1. rewrite Hdb.
    cbn [is_nullptr]. unfold mbind at 1, M_bind at 1, deref. by rewrite Htb.
Qed.

(** ** What a FAILURE result means *)

Lemma GetDatabaseWithName_pure c (name : string) :
  ∃ found, GetDatabaseWithName name c = Some (found, c).
Proof. eexists. reflexivity. Qed.

(** X15. Failure atomicity of the operations that have it: whenever
    CreateDatabase, CreatePrimaryIndex, CreateTable, CreateIndex,
    DropDatabaseWithName, DropTable or DropTableWithOid reports FAILURE, the
    catalog is exactly as it was before the call. *)
Theorem FAILURE_leaves_catalog_unchanged c c' :
  (∀ name : string, CreateDatabase name c = Some (FAILURE, c') → c' = c)
  ∧ (∀ database_name name : string,
       CreatePrimaryIndex database_name name c = Some (FAILURE, c') → c' = c)
  ∧ (∀ (database_name name : string) (schema : Schema),
       CreateTable database_name name schema c = Some (Some FAILURE, c') → c' = c)
  ∧ (∀ (database_name name : string) (index_attr : list string) (iname : string)
       (unique : bool) (ty : IndexType),
       CreateIndex database_name name index_attr iname unique ty c
       = Some (FAILURE, c') → c' = c)
  ∧ (∀ name : string, DropDatabaseWithName name c = Some (FAILURE, c') → c' = c)
  ∧ (∀ database_name name : string,
       DropTable database_name name c = Some (FAILURE, c') → c' = c)
  ∧ (∀ db_oid tb_oid : Z,
       DropTableWithOid db_oid tb_oid c = Some (FAILURE, c') → c' = c).
Proof.
  split_and!.
  - intros name.
    unfold CreateDatabase, mbind at 1, M_bind at 1, DatabaseCatalog_GetDatabaseOid,
      gets.
    destruct (decide _); [by intros [= <-]|]. by intros [= ?].
  - intros database_name name.
    unfold CreatePrimaryIndex, mbind at 1, M_bind at 1.
    destruct (GetDatabaseWithName_pure c database_name) as [[[i d]|] ->];
      [|by intros [= <-]].
    destruct (Database_GetTableWithName name d) as [[j t]|]; [|by intros [= <-]].
    by intros [= ?].
  - intros database_name name schema.
    unfold CreateTable, mbind at 1, M_bind at 1.
    destruct (GetDatabaseWithName_pure c database_name) as [[[i d]|] Hdb];
      rewrite Hdb; [|by intros [= <-]].
    destruct (Database_GetTableWithName name d) as [[j t]|] eqn:Htb;
      [by intros [= <-]|].
    unfold mbind at 1, M_bind at 1, GetNextOid.
    unfold mbind at 1, M_bind at 1, Database_at, modify.
    unfold mbind at 1, M_bind at 1, TableCatalog_InsertTable, modify.
    unfold mbind at 1, M_bind at 1. rewrite insert_columns_spec.
    cbn [table_schema TableFactory_GetDataTable orb].
    destruct (existsb IsPrimary (GetColumns schema)); [|by intros [= ?]].
    unfold mbind at 1, M_bind at 1.
    set (table0 := TableFactory_GetDataTable (database_oid d) _ schema name).
    set (c1 := set_pg_attribute _ _).
    rewrite (CreatePrimaryIndex_run c1 database_name name i
               (Database_AddTable table0 d) (length (tables d)) table0).
    + by intros [= ?].
    + by apply (GetDatabaseWithName_alter c).
    + unfold Database_GetTableWithName in *. cbn -[list_find].
      by apply list_find_snoc.
  - intros database_name name index_attr iname unique ty.
    unfold CreateIndex, mbind at 1, M_bind at 1, DatabaseCatalog_GetDatabaseOid,
      gets.
    destruct (decide _); [by intros [= <-]|].
    unfold mbind at 1, M_bind at 1, TableCatalog_GetTableOid, gets.
    destruct (decide _); [by intros [= <-]|].
    unfold mbind at 1, M_bind at 1, GetDatabaseWithOid, gets.
    destruct (list_find _ (databases_ c)) as [[i d]|]; [|by intros [= <-]].
    destruct (Database_GetTableWithOid _ d) as [[j t]|]; [|by intros [= <-]].
    destruct (decide _); [by intros [= <-]|]. by intros [= ?].
  - intros name.
    unfold DropDatabaseWithName, mbind at 1, M_bind at 1,
      DatabaseCatalog_GetDatabaseOid, gets.
    destruct (list_find _ (pg_database c)) as [[i t]|] eqn:Hfind.
    + destruct (decide _); [by intros [= <-]|].
      unfold mbind, M_bind, DatabaseCatalog_DeleteDatabase.
      rewrite bool_decide_eq_true_2; [by intros [= ?]|].
      apply list_find_Some in Hfind as (Hl & _).
      apply Exists_exists. exists t. split; [|done].
      by eapply list_elem_of_lookup_2.
    + rewrite decide_True by done. by intros [= <-].
  - intros database_name name.
    unfold DropTable, mbind at 1, M_bind at 1.
    destruct (GetDatabaseWithName_pure c database_name) as [[[i d]|] ->];
      [|by intros [= <-]].
    cbn [is_nullptr]. unfold mbind at 1, M_bind at 1, deref.
    cbn [is_nullptr]. unfold mbind at 1, M_bind at 1.
    destruct (Database_GetTableWithName name d) as [[j t]|]; [|done].
    unfold mbind at 1, M_bind at 1, DataTable_at, Database_at, modify.
    unfold mbind at 1, M_bind at 1.
    unfold mbind at 1, M_bind at 1, TableCatalog_DeleteTable.
    unfold mbind at 1, M_bind at 1. rewrite delete_columns_spec.
    by intros [= ?].
  - intros db_oid tb_oid.
    unfold DropTableWithOid, mbind at 1, M_bind at 1, GetDatabaseWithOid, gets.
    destruct (list_find _ (databases_ c)) as [[i d]|]; [|by intros [= <-]].
    cbn [is_nullptr]. unfold mbind at 1, M_bind at 1, deref.
    cbn [is_nullptr]. unfold mbind at 1, M_bind at 1.
    destruct (Database_GetTableWithOid tb_oid d) as [[j t]|]; [|done].
    unfold mbind at 1, M_bind at 1, DataTable_at, Database_at, modify.
    unfold mbind at 1, M_bind at 1.
    unfold mbind at 1, M_bind at 1, TableCatalog_DeleteTable.
    unfold mbind at 1, M_bind at 1. rewrite delete_columns_spec.
    by intros [= ?].
Qed.

End CatalogExtras.

(** * The function registry *)

Section FunctionRegistry.

Import peloton.

Implicit Types (registry : gmap string FunctionData) (data : FunctionData).

Lemma AddFunction_normal registry data :
  registry !! func_name_ data = None →
  AddFunction (func_name_ data) (argument_types_ data) (return_type_ data)
              (func_ptr_ data) registry
  = Normal tt (<[func_name_ data := data]> registry).
Proof.
  intros Hn. unfold AddFunction. rewrite decide_True by done. by destruct data.
Qed.

Lemma AddFunction_registered registry (name : string) args ret ptr :
  registry !! name ≠ None →
  AddFunction name args ret ptr registry = AssertionFailed.
Proof. intros Hn. unfold AddFunction. by rewrite decide_False. Qed.

(** X16. Registration round trip: AddFunction of a name that is not
    registered ends normally, after which GetFunction returns exactly the
    registered data, every other name resolves as before, and a second
    AddFunction of the name trips the assertion. *)
Theorem AddFunction_then_GetFunction registry (name : string)
    (args : list TypeId) (ret : TypeId) (ptr : BuiltinFunction) :
  registry !! name = None →
  ∃ registry',
    AddFunction name args ret ptr registry = Normal tt registry'
    ∧ GetFunction name registry'
      = Normal {| func_name_ := name; argument_types_ := args;
                  return_type_ := ret; func_ptr_ := ptr |} registry'
    ∧ (∀ other : string, other ≠ name →
         registry' !! other = registry !! other)
    ∧ (∀ args' ret' ptr',
         AddFunction name args' ret' ptr' registry' = AssertionFailed).
Proof.
  intros Hn. eexists. split.
  { unfold AddFunction. by rewrite decide_True. }
  split_and!.
  - unfold GetFunction. by rewrite lookup_insert_eq.
  - intros other Hne. by rewrite lookup_insert_ne.
  - intros args' ret' ptr'. apply AddFunction_registered.
    by rewrite lookup_insert_eq.
Qed.

(** X17. RemoveFunction never fails: afterwards GetFunction of the name
    throws "function <name> not found.", every other name resolves as
    before, and removing a name that was not registered leaves the registry
    as it was.  Registering a fresh name and removing it again restores the
    registry. *)
Theorem RemoveFunction_then_GetFunction registry (name : string) :
  ∃ registry',
    RemoveFunction name registry = Normal tt registry'
    ∧ GetFunction name registry'
      = Thrown ("function " +:+ name +:+ " not found.")
    ∧ (∀ other : string, other ≠ name →
         GetFunction other registry'
         = match GetFunction other registry with
           | Normal data _ => Normal data registry'
           | AssertionFailed => AssertionFailed
           | Thrown what => Thrown what
           end)
    ∧ (registry !! name = None → registry' = registry)
    ∧ (registry !! name = None →
       ∀ args ret ptr,
         (AddFunction name args ret ptr ≫= λ _, RemoveFunction name) registry
         = Normal tt registry).
Proof.
  eexists. split; [reflexivity|]. split_and!.
  - unfold GetFunction. by rewrite lookup_delete_eq.
  - intros other Hne. unfold GetFunction. rewrite lookup_delete_ne by done.
    by destruct (registry !! other).
  - intros Hn. by apply delete_id.
  - intros Hn args ret ptr. unfold mbind, Registry_bind, AddFunction.
    rewrite decide_True by done. unfold RemoveFunction.
    by rewrite delete_insert_id.
Qed.

(** ** InitializeFunctions *)

Lemma InitializeFunctions_unfold registry :
  InitializeFunctions registry = AddFunctions builtin_functions registry.
Proof.
  unfold InitializeFunctions, builtin_functions. cbn. unfold mbind, Registry_bind.
  repeat match goal with
         | |- context [match AddFunction ?n ?a ?r ?p ?f with _ => _ end] =>
           destruct (AddFunction n a r p f) as [[] ?| |]; try reflexivity
         end.
Qed.

Lemma AddFunctions_normal (entries : list FunctionData) registry :
  NoDup (func_name_ <$> entries) →
  Forall (λ data, registry !! func_name_ data = None) entries →
  ∃ registry',
    AddFunctions entries registry = Normal tt registry'
    ∧ (∀ data, data ∈ entries → registry' !! func_name_ data = Some data)
    ∧ (∀ name : string, name ∉ (func_name_ <$> entries) →
         registry' !! name = registry !! name).
Proof.
  revert registry. induction entries as [|data entries IH];
    intros registry Hd Habs.
  - exists registry. split; [done|]. split; [|done].
    intros data Hin. by apply elem_of_nil in Hin.
  - rewrite fmap_cons, NoDup_cons in Hd. destruct Hd as [Hfresh Hd].
    apply Forall_cons in Habs as [Hhead Habs].
    destruct (IH (<[func_name_ data := data]> registry) Hd)
      as (registry' & Hrun & Hreg & Hother).
    { apply Forall_forall. intros data' Hin.
      rewrite lookup_insert_ne.
      - by eapply Forall_forall in Habs.
      - intros Heq. apply Hfresh. rewrite Heq.
        apply list_elem_of_fmap. by exists data'. }
    exists registry'. split_and!.
    + cbn. unfold mbind, Registry_bind. by rewrite AddFunction_normal.
    + intros data' [->|Hin]%elem_of_cons; [|by apply Hreg].
      rewrite Hother by done. by rewrite lookup_insert_eq.
    + intros name [Hne Hn]%not_elem_of_cons.
      rewrite Hother by done. by rewrite lookup_insert_ne.
Qed.

Lemma AddFunctions_registered (entries : list FunctionData) registry :
  Exists (λ data, registry !! func_name_ data ≠ None) entries →
  AddFunctions entries registry = AssertionFailed.
Proof.
  revert registry. induction entries as [|data entries IH];
    intros registry Hex; [by apply Exists_nil in Hex|].
  cbn. unfold mbind, Registry_bind.
  destruct (decide (registry !! func_name_ data = None)) as [Hn|Hn].
  - rewrite AddFunction_normal by done. apply IH.
    apply Exists_cons in Hex as [Hex|Hex]; [done|].
    eapply Exists_impl; [exact Hex|]. intros data' Hreg. cbn in Hreg.
    destruct (decide (func_name_ data = func_name_ data')) as [Heq|Hne].
    + rewrite Heq, lookup_insert_eq. done.
    + by rewrite lookup_insert_ne.
  - by rewrite AddFunction_registered.
Qed.

(** X18. InitializeFunctions ends normally exactly when none of its
    twelve names is registered yet.  It then makes every one of them
    resolve to the data it was registered with and leaves all other names
    as they were; run a second time, it trips the assertion. *)
Theorem InitializeFunctions_registers_builtins registry :
  (Forall (λ data, registry !! func_name_ data = None) builtin_functions →
   ∃ registry',
     InitializeFunctions registry = Normal tt registry'
     ∧ (∀ data, data ∈ builtin_functions →
          GetFunction (func_name_ data) registry' = Normal data registry')
     ∧ (∀ name : string, name ∉ (func_name_ <$> builtin_functions) →
          registry' !! name = registry !! name)
     ∧ InitializeFunctions registry' = AssertionFailed)
  ∧ (Exists (λ data, registry !! func_name_ data ≠ None) builtin_functions →
     InitializeFunctions registry = AssertionFailed).
Proof.
  rewrite InitializeFunctions_unfold. split.
  - intros Habs. setoid_rewrite InitializeFunctions_unfold.
    destruct (AddFunctions_normal builtin_functions registry)
      as (registry' & Hrun & Hreg & Hother); [|done|].
    { apply (bool_decide_unpack _). vm_compute. exact I. }
    exists registry'. split_and!; [done| |done|].
    + intros data Hin. unfold GetFunction. by rewrite Hreg.
    + apply AddFunctions_registered. apply Exists_cons_hd.
      rewrite Hreg; [done|]. by left.
  - apply AddFunctions_registered.
Qed.

End FunctionRegistry.

(** * Creating and dropping a table *)

Section CatalogTableCycle.

Import peloton.
Context {K : Constants}.

Implicit Types (c : Catalog) (database : Database) (table : DataTable).



End CatalogTableCycle.

(** * Instances of the further properties *)

Section ExtraRuns.

Import peloton.
#[local] Existing Instance constants32.

Lemma sales_is_a_fresh_name :
  ("sales" : string) ∉ (pg_database_name <$> pg_database abc_catalog).
Proof. apply (bool_decide_unpack _). vm_compute. exact I. Defined.

Lemma three_is_not_a_database_oid : oid_ abc_catalog ∉ live_database_oids abc_catalog.
Proof. apply (bool_decide_unpack _). vm_compute. exact I. Defined.

(** X1 at [abc_catalog] and the name "sales": the new database gets oid 3. *)
Lemma CreateDatabase_sales :
  (("sales" : string) ∉ (pg_database_name <$> pg_database abc_catalog))
  ∧ ∃ c',
      CreateDatabase "sales" abc_catalog = Some (SUCCESS, c')
      ∧ DatabaseCatalog_GetDatabaseOid "sales" c' = Some (3, c')
      ∧ GetDatabaseWithName "sales" c'
        = Some (Some (1%nat, {| database_oid := 3; database_name := "sales";
                                tables := [] |}), c').
Proof.
  split; [exact sales_is_a_fresh_name|].
  destruct (CreateDatabase_registers_database abc_catalog "sales"
              sales_is_a_fresh_name)
    as (c' & Hrun & _ & _ & _ & _ & _ & _ & Hoid & _ & Hname).
  exists c'. split_and!; [exact Hrun | exact Hoid |].
  exact (Hname three_is_not_a_database_oid).
Defined.

(** X2 at [abc_catalog] and the name "sales". *)
Lemma CreateDatabase_sales_twice :
  oid_ abc_catalog ≠ INVALID_OID
  ∧ ∃ c',
      CreateDatabase "sales" abc_catalog = Some (SUCCESS, c')
      ∧ CreateDatabase "sales" c' = Some (FAILURE, c').
Proof.
  assert (oid_ abc_catalog ≠ INVALID_OID) as Hv by (vm_compute; discriminate).
  split; [exact Hv|].
  destruct (CreateDatabase_twice_fails abc_catalog "sales"
              sales_is_a_fresh_name Hv) as (c' & H1 & H2 & _).
  exists c'. split; assumption.
Defined.

(** X3 at [abc_catalog] and the name "sales". *)
Lemma CreateDatabase_sales_then_drop :
  (CreateDatabase "sales" ≫= λ _, DropDatabaseWithOid 3) abc_catalog
  = Some (SUCCESS, set_oid (λ o, oid_wrap (o + 1)) abc_catalog).
Proof.
  apply (CreateDatabase_then_DropDatabaseWithOid abc_catalog "sales").
  - exact sales_is_a_fresh_name.
  - exact three_is_not_a_database_oid.
  - apply (bool_decide_unpack _). vm_compute. exact I.
  - apply (bool_decide_unpack _). vm_compute. exact I.
Defined.

(** X4 at [orphan_catalog] and oid 9. *)
Lemma DropDatabaseWithOid_orphan_tuple :
  9 ∈ catalog_database_oids orphan_catalog
  ∧ ∃ c',
      DropDatabaseWithOid 9 orphan_catalog = Some (FAILURE, c')
      ∧ pg_database c' = [].
Proof.
  assert (9 ∈ catalog_database_oids orphan_catalog) as Hin.
  { apply (bool_decide_unpack _). vm_compute. exact I. }
  split; [exact Hin|].
  destruct (DropDatabaseWithOid_fails_after_deleting_the_tuple orphan_catalog 9 Hin)
    as (c' & Hrun & Htuples & _).
  - apply (bool_decide_unpack _). vm_compute. exact I.
  - apply (bool_decide_unpack _). vm_compute. exact I.
  - exists c'. split; [exact Hrun|]. rewrite Htuples. reflexivity.
Defined.


(** X6 at [abc_catalog] and a database with oid 7, which lacks the tag. *)
Lemma AddDatabase_seven_then_drop :
  Z.lor 7 CatalogType_DATABASE ≠ 7
  ∧ ∃ c',
      AddDatabase (new_Database 7) abc_catalog = Some (tt, c')
      ∧ DropDatabaseWithOid 7 c' = Some (FAILURE, c')
      ∧ HasDatabase 7 c' = Some (true, c').
Proof.
  assert (Z.lor 7 CatalogType_DATABASE ≠ 7) as Htag by (vm_compute; discriminate).
  split; [exact Htag|].
  destruct (AddDatabase_then_DropDatabaseWithOid abc_catalog (new_Database 7))
    as [_ Hfail].
  - apply (bool_decide_unpack _). vm_compute. exact I.
  - apply (bool_decide_unpack _). vm_compute. exact I.
  - apply (bool_decide_unpack _). vm_compute. exact I.
  - exact (Hfail Htag).
Defined.

(** X7 at [db_catalog]: a table "t" with the primary column "x". *)
Lemma CreateTable_t_in_db :
  GetDatabaseWithName "db" db_catalog
  = Some (Some (0%nat, {| database_oid := 1; database_name := "db"; tables := [] |}),
          db_catalog)
  ∧ ∃ c',
      CreateTable "db" "t" (new_Schema [integer_column "x" 0 [PRIMARY]]) db_catalog
      = Some (Some SUCCESS, c')
      ∧ oid_ c' = 4
      ∧ CreateTable "db" "t" (new_Schema []) c' = Some (Some FAILURE, c').
Proof.
  split; [reflexivity|].
  destruct (CreateTable_with_primary_key db_catalog "db" "t"
              (new_Schema [integer_column "x" 0 [PRIMARY]]) 0%nat
              {| database_oid := 1; database_name := "db"; tables := [] |}
              eq_refl eq_refl eq_refl)
    as (c' & Hrun & _ & _ & _ & _ & _ & Hctr & _ & Hagain).
  exists c'. split_and!; [exact Hrun | exact Hctr | apply Hagain].
Defined.

(** X8 at [abc_catalog]. *)
Lemma CreatePrimaryIndex_twice_on_abc_table :
  ∃ c' database' table',
    (CreatePrimaryIndex "db" "t" ≫= λ _, CreatePrimaryIndex "db" "t") abc_catalog
    = Some (SUCCESS, c')
    ∧ databases_ c' !! 0%nat = Some database'
    ∧ tables database' !! 0%nat = Some table'
    ∧ index_constraint_type ∘ metadata <$> indexes table'
      = [PRIMARY_KEY; PRIMARY_KEY].
Proof.
  destruct (CreatePrimaryIndex_twice_attaches_two_indexes abc_catalog "db" "t"
              0%nat abc_database 0%nat abc_table eq_refl eq_refl)
    as (c' & database' & table' & Hrun & Hd & Ht & Hidx).
  exists c', database', table'. split_and!; [assumption..|].
  rewrite Hidx. reflexivity.
Defined.

(** X9 at [abc_catalog]: the request ["c"; "a"] resolves to [2; 0]. *)
Lemma CreateIndex_c_a_on_abc_table :
  ∃ c' index,
    CreateIndex "db" "t" ["c"%string; "a"%string] "idx" true HASH abc_catalog
    = Some (SUCCESS, c')
    ∧ column_name <$> columns (key_schema (metadata index))
      = ["c"%string; "a"%string]
    ∧ GetIndexWithOid 1 2 3 c' = Some (Some index, c')
    ∧ IndexCatalog_GetTableidByOid 3 c' = Some (2, c').
Proof.
  destruct (CreateIndex_resolves_request_in_order abc_catalog "db" "t"
              ["c"%string; "a"%string] "idx" true HASH 1 2
              0%nat abc_database 0%nat abc_table)
    as (c' & index & database' & table' & Hrun & _ & _ & _ & _ & Hnames & _ & _
        & Hget & Hcat).
  - reflexivity.
  - reflexivity.
  - vm_compute. discriminate.
  - vm_compute. discriminate.
  - reflexivity.
  - reflexivity.
  - apply (bool_decide_unpack _). vm_compute. exact I.
  - apply (bool_decide_unpack _). vm_compute. exact I.
  - exists c', index. split_and!; [exact Hrun | exact Hnames | |].
    + apply Hget. apply (bool_decide_unpack _). vm_compute. exact I.
    + apply Hcat. apply (bool_decide_unpack _). vm_compute. exact I.
Defined.

Lemma consistent_catalog_bookkeeping : dual_bookkeeping consistent_catalog.
Proof. repeat split; intros H; exact H. Defined.

(** X10 at [consistent_catalog]. *)
Lemma CreateIndex_on_consistent_catalog :
  dual_bookkeeping consistent_catalog
  ∧ ∃ c',
      CreateIndex "db" "t" ["b"%string] "idx" false BWTREE consistent_catalog
      = Some (SUCCESS, c')
      ∧ dual_bookkeeping c'.
Proof.
  split; [exact consistent_catalog_bookkeeping|].
  assert (∃ c', CreateIndex "db" "t" ["b"%string] "idx" false BWTREE
                  consistent_catalog = Some (SUCCESS, c')) as [c' Hrun].
  { vm_compute. eexists. reflexivity. }
  exists c'. split; [exact Hrun|].
  exact (CreateIndex_keeps_dual_bookkeeping consistent_catalog c' "db" "t"
           ["b"%string] "idx" false BWTREE consistent_catalog_bookkeeping Hrun).
Defined.

(** X11 at [consistent_catalog]. *)
Lemma CreateDatabase_on_consistent_catalog :
  ∃ c',
    CreateDatabase "sales" consistent_catalog = Some (SUCCESS, c')
    ∧ dual_bookkeeping c'.
Proof.
  assert (∃ c', CreateDatabase "sales" consistent_catalog = Some (SUCCESS, c'))
    as [c' Hrun].
  { vm_compute. eexists. reflexivity. }
  exists c'. split; [exact Hrun|].
  exact (CreateDatabase_keeps_dual_bookkeeping consistent_catalog c' "sales"
           consistent_catalog_bookkeeping Hrun).
Defined.



(** X14 at [db_catalog]: database 1 is known, table 5 is not. *)
Lemma DropTableWithOid_missing_table :
  GetDatabaseWithOid 8 db_catalog = Some (None, db_catalog)
  ∧ DropTableWithOid 8 5 db_catalog = Some (FAILURE, db_catalog)
  ∧ DropTableWithOid 1 5 db_catalog = None
  ∧ DropTable "db" "t" db_catalog = None.
Proof.
  destruct (DropTable_edge_cases db_catalog) as (H1 & H2 & _ & H4).
  split; [reflexivity|]. split_and!.
  - apply H1. reflexivity.
  - eapply H2; reflexivity.
  - eapply H4; reflexivity.
Defined.

(** X15 at [abc_catalog]: a CreateIndex that fails on a missing column. *)
Lemma failed_CreateIndex_changes_nothing :
  ∃ c',
    CreateIndex "db" "t" ["zz"%string] "idx" false BWTREE abc_catalog
    = Some (FAILURE, c')
    ∧ c' = abc_catalog.
Proof.
  exists abc_catalog. split; [vm_compute; reflexivity|].
  destruct (FAILURE_leaves_catalog_unchanged abc_catalog abc_catalog)
    as (_ & _ & _ & Hidx & _).
  refine (Hidx "db" "t" ["zz"%string] "idx" false BWTREE _).
  vm_compute. reflexivity.
Defined.


(** X16 on the empty registry. *)
Lemma AddFunction_ascii :
  ∃ registry : gmap string FunctionData,
    AddFunction "ascii" [VARCHAR] INTEGER StringFunctions_Ascii ∅
    = Normal tt registry
    ∧ GetFunction "ascii" registry
      = Normal {| func_name_ := "ascii"; argument_types_ := [VARCHAR];
                  return_type_ := INTEGER; func_ptr_ := StringFunctions_Ascii |}
               registry
    ∧ AddFunction "ascii" [] VARCHAR StringFunctions_Chr registry = AssertionFailed.
Proof.
  destruct (AddFunction_then_GetFunction ∅ "ascii" [VARCHAR] INTEGER
              StringFunctions_Ascii (lookup_empty _))
    as (registry & Hadd & Hget & _ & Hagain).
  exists registry. split_and!; [exact Hadd | exact Hget | apply Hagain].
Defined.

(** X17 on the registry holding "chr". *)
Lemma RemoveFunction_chr :
  ∃ registry : gmap string FunctionData,
    RemoveFunction "chr"
      {[ "chr"%string := {| func_name_ := "chr"; argument_types_ := [INTEGER];
                            return_type_ := VARCHAR;
                            func_ptr_ := StringFunctions_Chr |} ]}
    = Normal tt registry
    ∧ GetFunction "chr" registry = Thrown "function chr not found.".
Proof.
  destruct (RemoveFunction_then_GetFunction
              {[ "chr"%string := {| func_name_ := "chr"; argument_types_ := [INTEGER];
                                    return_type_ := VARCHAR;
                                    func_ptr_ := StringFunctions_Chr |} ]} "chr")
    as (registry & Hrun & Hget & _).
  exists registry. split; [exact Hrun | exact Hget].
Defined.

(** X18 on the empty registry. *)
Lemma InitializeFunctions_from_empty :
  ∃ registry : gmap string FunctionData,
    InitializeFunctions ∅ = Normal tt registry
    ∧ return_type_ <$> registry !! ("substr" : string) = Some VARCHAR
    ∧ InitializeFunctions registry = AssertionFailed.
Proof.
  destruct (InitializeFunctions_registers_builtins ∅) as [Hok _].
  destruct Hok as (registry & Hrun & Hget & _ & Hagain).
  - apply Forall_forall. intros data _. apply lookup_empty.
  - exists registry. split_and!; [exact Hrun | | exact Hagain].
    assert (GetFunction "substr" registry
            = Normal {| func_name_ := "substr";
                        argument_types_ := [VARCHAR; INTEGER; INTEGER];
                        return_type_ := VARCHAR;
                        func_ptr_ := StringFunctions_Substr |} registry) as Hs.
    { apply (Hget {| func_name_ := "substr";
                     argument_types_ := [VARCHAR; INTEGER; INTEGER];
                     return_type_ := VARCHAR;
                     func_ptr_ := StringFunctions_Substr |}).
      unfold builtin_functions. do 2 apply list_elem_of_further.
      apply list_elem_of_here. }
    unfold GetFunction in Hs.
    destruct (registry !! ("substr" : string)) as [data|]; [|discriminate].
    injection Hs as ->. reflexivity.
Defined.

End ExtraRuns.
